(** * MySQL INSERT row-limit advisor

    A shallow embedding of [plugin/advisor/mysql/advisor_insert_row_limit.go]
    (package [mysql] of bytebase): the advisor's [Check], the checker's
    visitor methods [Enter] and [Leave], and the EXPLAIN decoder
    [getInsertRows].

    Go's [int] and [int64] are integers in [Z]; a Go string is a [string];
    a slice is a [list] (the nil slice is the empty list, except where the
    code tests a slice against nil, where it is an [option]); a nilable
    pointer is an [option]; a [(T, error)] result is a sum or a pair with an
    optional error.  The checker is mutated through a pointer and the
    diagnostic query talks to a database: both are threaded explicitly. *)

From Stdlib Require Import ZArith String Ascii List Bool Lia DecimalString.
From Stdlib Require DecimalPos.
Import ListNotations.

Local Open Scope string_scope.
Local Open Scope Z_scope.

Set Warnings "-register-all".

(** ** Go runtime pieces used by the advisor *)

Module Go.

(** The value of Go's [error] interface, reduced to what the advisor
    reads of it: the text of [err.Error()]. *)
Inductive error : Type := Errorf (msg : string).

Definition Error (e : error) : string := let 'Errorf m := e in m.

(** One double-quote character (byte 34), escaped in the Go format
    strings. *)
Definition dquote : string := String (ascii_of_nat 34) EmptyString.

(** What [fmt.Sprintf] prints for the verb [%d] and an integer argument. *)
Definition fmt_d (z : Z) : string := NilZero.string_of_int (Z.to_int z).

Definition min_int64 : Z := - 2 ^ 63.
Definition max_int64 : Z := 2 ^ 63 - 1.

Definition in_int64 (z : Z) : Prop := min_int64 <= z <= max_int64.

Definition in_int64b (z : Z) : bool := (min_int64 <=? z) && (z <=? max_int64).

(** A decimal digit's value, [None] for any other byte. *)
Definition digit_of (c : ascii) : option Z :=
  let n := Z.of_nat (nat_of_ascii c) in
  if (48 <=? n) && (n <=? 57) then Some (n - 48) else None.

Fixpoint parse_digits (s : string) (acc : Z) : option Z :=
  match s with
  | EmptyString => Some acc
  | String c s' =>
      match digit_of c with
      | Some d => parse_digits s' (10 * acc + d)
      | None => None
      end
  end.

(** [strconv.ParseUint(s, 10, 64)] without its range check (the caller
    below checks the signed range): at least one digit, digits only. *)
Definition parse_unsigned (s : string) : option Z :=
  match s with
  | EmptyString => None
  | _ => parse_digits s 0
  end.

(** [strconv.ParseInt(s, 10, 64)] of Go's standard library: an optional
    sign, then one or more decimal digits, and the value must fit a signed
    64-bit integer.  [None] stands for a non-nil error. *)
Definition ParseInt (s : string) : option Z :=
  match s with
  | EmptyString => None
  | String c rest =>
      let neg := Ascii.eqb c "-" in
      let body := if Ascii.eqb c "+" || neg then rest else s in
      match parse_unsigned body with
      | None => None
      | Some un =>
          let v := if neg then - un else un in
          if in_int64b v then Some v else None
      end
  end.

(** A dynamically typed value ([interface{}]) as the query helper returns
    them: the dynamic types the decoder distinguishes, and a few it does
    not. *)
Inductive value : Type :=
| VNil
| VBool (b : bool)
| VInt (z : Z)
| VInt64 (z : Z)
| VString (s : string)
| VBytes (s : string)
| VSlice (l : list value).

(** Values whose integers fit their Go types ([int] is 64 bits wide on
    the platforms the server is built for). *)
Fixpoint wf_value (v : value) : Prop :=
  match v with
  | VInt z | VInt64 z => in_int64 z
  | VSlice l => (fix all (l : list value) : Prop :=
                   match l with
                   | [] => True
                   | x :: l' => wf_value x /\ all l'
                   end) l
  | _ => True
  end.

End Go.

(** ** Package [advisor]: the result types every advisor shares *)

Module advisor.

Inductive Status : Type := Success | Warn | Error.

(** The advice codes this advisor and the parser adapter use. *)
Inductive Code : Type := Ok | Internal | StatementSyntaxError | InsertTooManyRows.

Record Advice : Type := mkAdvice {
  AStatus : Status;
  ACode : Code;
  ATitle : string;
  AContent : string;
  ALine : Z
}.

(** [SQLReviewRule]: the rule's type, its level and its undecoded payload
    (all three are Go strings). *)
Record SQLReviewRule : Type := mkRule {
  RType : string;
  RLevel : string;
  RPayload : string
}.

Record NumberTypeRulePayload : Type := mkNumberPayload { Number : Z }.

End advisor.

(** ** Package [ast] of the SQL parser: nodes and the visitor protocol

    The parser is a library the advisor imports.  Of its node types the
    advisor tells [InsertStmt] from all others and reads [Select], [Lists]
    and [Text()] of it; every other node is an [OtherNode] with its
    children in visiting order. *)

Module ast.

Inductive Node : Type :=
| InsertStmt (text : string) (pos : Z)
             (Select : option Node) (Table : Node) (Columns : list Node)
             (Lists : list (list Node)) (Setlist OnDuplicate : list Node)
| OtherNode (text : string) (pos : Z) (children : list Node).

Definition Text (n : Node) : string :=
  match n with
  | InsertStmt t _ _ _ _ _ _ _ => t
  | OtherNode t _ _ => t
  end.

Definition OriginTextPosition (n : Node) : Z :=
  match n with
  | InsertStmt _ p _ _ _ _ _ _ => p
  | OtherNode _ p _ => p
  end.

(** The [Visitor] interface over a visitor state [S]: [Enter] answers
    [skipChildren], [Leave] answers [ok] (false stops the traversal).
    Both methods of the advisor hand the node back unchanged, so the node
    result is left out. *)
Record Visitor (S : Type) : Type := mkVisitor {
  Enter : Node -> S -> S * bool;
  Leave : Node -> S -> S * bool
}.
Arguments Enter {S} _ _ _.
Arguments Leave {S} _ _ _.

Section Traversal.
Context {S : Type} (v : Visitor S).

(** Continue with [k] while the traversal has not been stopped. *)
Definition andThen (r : S * bool) (k : S -> S * bool) : S * bool :=
  let (s, ok) := r in if ok then k s else (s, false).

(** [n.Accept(v)]: enter the node; when asked to skip the children go
    straight to [Leave]; otherwise visit the children in order (for
    an insert: the select, the table, the columns, the value lists, the
    set list, the on-duplicate list) and leave. *)
Fixpoint Accept (n : Node) (s : S) {struct n} : S * bool :=
  let each :=
    fix each (l : list Node) (s : S) {struct l} : S * bool :=
      match l with
      | [] => (s, true)
      | c :: l' => andThen (Accept c s) (each l')
      end in
  let rows :=
    fix rows (ll : list (list Node)) (s : S) {struct ll} : S * bool :=
      match ll with
      | [] => (s, true)
      | r :: ll' => andThen (each r s) (rows ll')
      end in
  let (s1, skipChildren) := Enter v n s in
  if skipChildren then Leave v n s1
  else
    match n with
    | InsertStmt _ _ sel tbl cols lists setl dup =>
        andThen (match sel with
                 | Some x => Accept x s1
                 | None => (s1, true)
                 end) (fun s2 =>
        andThen (Accept tbl s2) (fun s3 =>
        andThen (each cols s3) (fun s4 =>
        andThen (rows lists s4) (fun s5 =>
        andThen (each setl s5) (fun s6 =>
        andThen (each dup s6) (Leave v n))))))
    | OtherNode _ _ ch => andThen (each ch s1) (Leave v n)
    end.

Fixpoint AcceptEach (l : list Node) (s : S) : S * bool :=
  match l with
  | [] => (s, true)
  | c :: l' => andThen (Accept c s) (AcceptEach l')
  end.

Fixpoint AcceptRows (ll : list (list Node)) (s : S) : S * bool :=
  match ll with
  | [] => (s, true)
  | r :: ll' => andThen (AcceptEach r s) (AcceptRows ll')
  end.

End Traversal.

(** The nodes of a tree in the order [Accept] enters them when no visitor
    method skips or stops. *)
Fixpoint preorder (n : Node) : list Node :=
  let each :=
    fix each (l : list Node) : list Node :=
      match l with
      | [] => []
      | c :: l' => (preorder c ++ each l')%list
      end in
  let rows :=
    fix rows (ll : list (list Node)) : list Node :=
      match ll with
      | [] => []
      | r :: ll' => (each r ++ rows ll')%list
      end in
  n :: match n with
       | InsertStmt _ _ sel tbl cols lists setl dup =>
           ((match sel with Some x => preorder x | None => [] end)
            ++ preorder tbl ++ each cols ++ rows lists ++ each setl ++ each dup)%list
       | OtherNode _ _ ch => each ch
       end.

Definition preorderEach (l : list Node) : list Node := flat_map preorder l.

Definition preorderRows (ll : list (list Node)) : list Node :=
  flat_map preorderEach ll.

Definition isInsertStmt (n : Node) : bool :=
  match n with
  | InsertStmt _ _ _ _ _ _ _ _ => true
  | OtherNode _ _ _ => false
  end.

(** How many insert statements a tree holds, itself included. *)
Definition countInsertStmt (n : Node) : nat :=
  List.length (filter isInsertStmt (preorder n)).

(** Induction over trees, with the hypothesis for every child. *)
Section NodeInduction.
Variable P : Node -> Prop.
Hypothesis HInsert :
  forall text pos sel tbl cols lists setl dup,
    (forall x, sel = Some x -> P x) -> P tbl -> Forall P cols ->
    Forall (Forall P) lists -> Forall P setl -> Forall P dup ->
    P (InsertStmt text pos sel tbl cols lists setl dup).
Hypothesis HOther :
  forall text pos ch, Forall P ch -> P (OtherNode text pos ch).

Fixpoint Node_induction (n : Node) : P n :=
  let each :=
    fix each (l : list Node) : Forall P l :=
      match l with
      | [] => Forall_nil P
      | c :: l' => Forall_cons c (Node_induction c) (each l')
      end in
  let rows :=
    fix rows (ll : list (list Node)) : Forall (Forall P) ll :=
      match ll with
      | [] => Forall_nil (Forall P)
      | r :: ll' => Forall_cons r (each r) (rows ll')
      end in
  match n with
  | InsertStmt text pos sel tbl cols lists setl dup =>
      HInsert text pos sel tbl cols lists setl dup
        (fun x (e : sel = Some x) =>
           match sel as o return o = Some x -> P x with
           | Some y => fun e' =>
               match e' in _ = z return
                     match z with Some x' => P x' | None => True end with
               | eq_refl => Node_induction y
               end
           | None => fun e' =>
               match e' in _ = z return
                     match z with Some x' => P x' | None => True end with
               | eq_refl => I
               end
           end e)
        (Node_induction tbl) (each cols) (rows lists) (each setl) (each dup)
  | OtherNode text pos ch => HOther text pos ch (each ch)
  end.
End NodeInduction.

End ast.

(** ** Package [mysql]: the INSERT row-limit advisor *)

Module mysql.
Import Go advisor ast.

(** What the advisor calls but does not define: the database behind
    [*sql.DB] (its state is a [World]; a query reads and may change it),
    Go's [context.Context], the query helper [advisor.Query], the SQL
    parser behind the parser adapter, the two decoders of package
    [advisor], and what [fmt] prints for the verb [%t] given a value that
    is not a boolean. *)
Class Collaborators : Type := {
  World : Type;
  DB : Type;
  GoContext : Type;
  Query : GoContext -> DB -> string -> World -> (list value + error) * World;
  Parse : string -> string -> string -> list Node + (string * Z);
  SyntaxErrorTitle : string;
  NewStatusBySQLReviewRuleLevel : string -> Status + error;
  UnmarshalNumberTypeRulePayload : string -> NumberTypeRulePayload + error;
  fmt_t : value -> string
}.

Section Advisor.
Context `{Collaborators}.

(** [advisor.Context], the per-call bundle. *)
Record Context : Type := mkContext {
  Charset : string;
  Collation : string;
  Rule : SQLReviewRule;
  Driver : option DB;
  Ctx : GoContext
}.

(** Modelled from the spec: the parser adapter [parseStatement] of
    package [mysql], which is not among the sources.  It hands back the
    statements of the script, or, when the script does not parse, no
    statement and a single Error advice with the syntax code and a
    best-effort line. *)
Definition parseStatement (statement charset collation : string)
  : list Node * option (list Advice) :=
  match Parse statement charset collation with
  | inl stmtList => (stmtList, None)
  | inr (msg, line) =>
      ([], Some [mkAdvice Error StatementSyntaxError SyntaxErrorTitle msg line])
  end.

Definition len {A : Type} (l : list A) : Z := Z.of_nat (List.length l).

(** The conversion [int64(x)] of an [int]. *)
Definition int64 (z : Z) : Z := (z + 2 ^ 63) mod 2 ^ 64 - 2 ^ 63.

(** [getInsertRows]: the estimated row count in an EXPLAIN result
    [{columnName, columnTable, rowDataList}], or an error. *)
Definition getInsertRows (res : list value) : Z + error :=
  if negb (len res =? 3) then
    inr (Errorf ("expected 3 but got " ++ fmt_d (len res)))
  else
    match nth 2 res VNil with
    | VSlice rowList =>
        if len rowList <? 2 then inr (Errorf "not found any data")
        else
          match nth 1 rowList VNil with
          | VSlice rowTwo =>
              if negb (len rowTwo =? 12) then
                inr (Errorf ("expected 12 but got " ++ fmt_d (len rowTwo)))
              else
                match nth 9 rowTwo VNil with
                | VInt rows => inl (int64 rows)
                | VInt64 rows => inl rows
                | VString rows =>
                    match ParseInt rows with
                    | Some v => inl v
                    | None =>
                        inr (Errorf ("expected int or int64 but got string("
                                     ++ rows ++ ")"))
                    end
                | other =>
                    inr (Errorf ("expected int or in64 but got " ++ fmt_t other))
                end
          | _ =>
              inr (Errorf ("expected []interface{} but got "
                           ++ fmt_t (nth 0 rowList VNil)))
          end
    | other => inr (Errorf ("expected []interface{} but got " ++ fmt_t other))
    end.

Record insertRowLimitChecker : Type := mkChecker {
  adviceList : list Advice;
  level : Status;
  title : string;
  text : string;
  line : Z;
  maxRow : Z;
  driver : option DB;
  ctx : GoContext
}.

(** [checker.adviceList = append(checker.adviceList, a)]. *)
Definition appendAdvice (checker : insertRowLimitChecker) (a : Advice)
  : insertRowLimitChecker :=
  mkChecker (checker.(adviceList) ++ [a])%list checker.(level) checker.(title)
            checker.(text) checker.(line) checker.(maxRow)
            checker.(driver) checker.(ctx).

(** [checker.text = t; checker.line = l]. *)
Definition setStatement (checker : insertRowLimitChecker) (t : string) (l : Z)
  : insertRowLimitChecker :=
  mkChecker checker.(adviceList) checker.(level) checker.(title)
            t l checker.(maxRow) checker.(driver) checker.(ctx).

Definition tooManyRowsContent (text : string) (rows maxRow : Z) : string :=
  dquote ++ text ++ dquote ++ " inserts " ++ fmt_d rows
  ++ " rows. The count exceeds " ++ fmt_d maxRow ++ ".".

Definition dryRunFailedContent (text : string) (err : error) : string :=
  dquote ++ text ++ dquote ++ " dry runs failed: " ++ Go.Error err.

Definition rowCountFailedContent (text : string) (err : error) : string :=
  "failed to get row count for " ++ dquote ++ text ++ dquote ++ ": "
  ++ Go.Error err.

(** [Enter] of the [ast.Visitor] interface.  The state is the checker
    behind the pointer receiver together with the database. *)
Definition Enter (in_ : Node) (st : insertRowLimitChecker * World)
  : (insertRowLimitChecker * World) * bool :=
  let (checker, w) := st in
  match in_ with
  | InsertStmt _ _ None _ _ Lists _ _ =>
      if len Lists >? checker.(maxRow) then
        ((appendAdvice checker
            (mkAdvice checker.(level) InsertTooManyRows checker.(title)
               (tooManyRowsContent checker.(text) (len Lists) checker.(maxRow))
               checker.(line)), w), false)
      else ((checker, w), false)
  | InsertStmt _ _ (Some _) _ _ _ _ _ =>
      match checker.(driver) with
      | Some db =>
          let (res, w') :=
            Query checker.(ctx) db ("EXPLAIN " ++ Text in_) w in
          match res with
          | inr err =>
              ((appendAdvice checker
                  (mkAdvice checker.(level) InsertTooManyRows checker.(title)
                     (dryRunFailedContent checker.(text) err)
                     checker.(line)), w'), false)
          | inl res =>
              match getInsertRows res with
              | inr err =>
                  ((appendAdvice checker
                      (mkAdvice checker.(level) Internal checker.(title)
                         (rowCountFailedContent checker.(text) err)
                         checker.(line)), w'), false)
              | inl rowCount =>
                  if rowCount >? int64 checker.(maxRow) then
                    ((appendAdvice checker
                        (mkAdvice checker.(level) InsertTooManyRows
                           checker.(title)
                           (tooManyRowsContent checker.(text) rowCount
                              checker.(maxRow))
                           checker.(line)), w'), false)
                  else ((checker, w'), false)
              end
          end
      | None => ((checker, w), false)
      end
  | OtherNode _ _ _ => ((checker, w), false)
  end.

(** [Leave] of the [ast.Visitor] interface. *)
Definition Leave (in_ : Node) (st : insertRowLimitChecker * World)
  : (insertRowLimitChecker * World) * bool :=
  (st, true).

Definition checkerVisitor : Visitor (insertRowLimitChecker * World) :=
  mkVisitor _ Enter Leave.

(** The loop over [stmtList] in [Check]. *)
Fixpoint visitStatements (stmtList : list Node)
    (st : insertRowLimitChecker * World) : insertRowLimitChecker * World :=
  match stmtList with
  | [] => st
  | stmt :: rest =>
      let (checker, w) := st in
      let checker := setStatement checker (Text stmt) (OriginTextPosition stmt) in
      visitStatements rest (fst (Accept checkerVisitor stmt (checker, w)))
  end.

(** The nodes of [l] entered one after the other. *)
Definition enterAll (l : list Node) (st : insertRowLimitChecker * World)
  : insertRowLimitChecker * World :=
  fold_left (fun st n => fst (Enter n st)) l st.

(** Two checkers that differ at most in the [context.Context] they carry. *)
Definition sameButCtx (c1 c2 : insertRowLimitChecker) : Prop :=
  c1.(adviceList) = c2.(adviceList) /\ c1.(level) = c2.(level) /\
  c1.(title) = c2.(title) /\ c1.(text) = c2.(text) /\ c1.(line) = c2.(line) /\
  c1.(maxRow) = c2.(maxRow) /\ c1.(driver) = c2.(driver).

(** An insert with a value list and no select: the shape the checker
    decides without a database. *)
Definition isValuesInsert (n : Node) : bool :=
  match n with
  | InsertStmt _ _ None _ _ _ _ _ => true
  | _ => false
  end.

Definition okAdvice : Advice := mkAdvice Success Ok "OK" EmptyString 0.

(** The checker [Check] builds: no advice yet, text and line zeroed. *)
Definition newChecker (ctx : Context) (level : Status)
    (payload : NumberTypeRulePayload) : insertRowLimitChecker :=
  mkChecker [] level ctx.(Rule).(RType) EmptyString 0
            payload.(Number) ctx.(Driver) ctx.(Ctx).

(** [InsertRowLimitAdvisor.Check]: the advice list, the error (if any)
    and the database afterwards. *)
Definition Check (ctx : Context) (statement : string) (w : World)
  : (list Advice * option error) * World :=
  let (stmtList, errAdvice) :=
    parseStatement statement ctx.(Charset) ctx.(Collation) in
  match errAdvice with
  | Some errAdvice => ((errAdvice, None), w)
  | None =>
      match NewStatusBySQLReviewRuleLevel ctx.(Rule).(RLevel) with
      | inr err => (([], Some err), w)
      | inl level =>
          match UnmarshalNumberTypeRulePayload ctx.(Rule).(RPayload) with
          | inr err => (([], Some err), w)
          | inl payload =>
              let checker := newChecker ctx level payload in
              let (checker, w') :=
                if payload.(Number) >? 0
                then visitStatements stmtList (checker, w)
                else (checker, w) in
              let checker :=
                if len checker.(adviceList) =? 0
                then appendAdvice checker okAdvice
                else checker in
              ((checker.(adviceList), None), w')
          end
      end
  end.

(** An insert that takes its rows from a select: the shape the checker
    can only decide with a database. *)
Definition isSelectInsert (n : Node) : bool :=
  match n with
  | InsertStmt _ _ (Some _) _ _ _ _ _ => true
  | _ => false
  end.

(** What the branch of [Enter] without a query appends for node [n] while
    the checker visits statement [stmt]: one advice for an insert of more
    value lists than [maxRow], with the text and the line of [stmt]. *)
Definition staticFinding (lvl : Status) (title : string) (maxRow : Z)
    (stmt n : Node) : list Advice :=
  match n with
  | InsertStmt _ _ None _ _ Lists _ _ =>
      if len Lists >? maxRow then
        [mkAdvice lvl InsertTooManyRows title
           (tooManyRowsContent (Text stmt) (len Lists) maxRow)
           (OriginTextPosition stmt)]
      else []
  | _ => []
  end.

Definition staticFindings (lvl : Status) (title : string) (maxRow : Z)
    (stmtList : list Node) : list Advice :=
  flat_map (fun stmt => flat_map (staticFinding lvl title maxRow stmt)
                                 (preorder stmt)) stmtList.

(** The checker with its advice list emptied. *)
Definition withoutAdvice (checker : insertRowLimitChecker) : insertRowLimitChecker :=
  mkChecker [] checker.(level) checker.(title) checker.(text) checker.(line)
            checker.(maxRow) checker.(driver) checker.(ctx).

(** The text of the diagnostic query for an insert node. *)
Definition explainQuery (n : Node) : string := "EXPLAIN " ++ Text n.

End Advisor.

(** The same collaborators with a database that also keeps, in order, the
    text of every query it receives. *)
Definition logged (C : Collaborators) : Collaborators := {|
  World := (@World C * list string)%type;
  DB := @DB C;
  GoContext := @GoContext C;
  Query := fun g d q st =>
             let (r, w') := @Query C g d q (fst st) in
             (r, (w', (snd st ++ [q])%list));
  Parse := @Parse C;
  SyntaxErrorTitle := @SyntaxErrorTitle C;
  NewStatusBySQLReviewRuleLevel := @NewStatusBySQLReviewRuleLevel C;
  UnmarshalNumberTypeRulePayload := @UnmarshalNumberTypeRulePayload C;
  fmt_t := @fmt_t C
|}.

End mysql.

(** ** A concrete set of collaborators

    A small database, parser and pair of decoders on which the advisor
    can be run: the database logs the queries it receives and answers every
    one of them with the answer its handle carries; a cancelled context
    fails the query; the parser knows a handful of scripts. *)

Module Demo.
Import Go advisor ast mysql.

Definition leaf : Node := OtherNode EmptyString 0 [].

Definition tableRef : Node := OtherNode EmptyString 0 [leaf].

Definition insertValuesSQL : string := "INSERT INTO t(id) VALUES (1),(2),(3)".

Definition insertValues : Node :=
  InsertStmt insertValuesSQL 1 None tableRef [leaf] [[leaf]; [leaf]; [leaf]] [] [].

Definition insertSelectSQL : string := "INSERT INTO t SELECT * FROM other".

Definition selectOther : Node := OtherNode EmptyString 0 [tableRef; leaf].

Definition insertSelect : Node :=
  InsertStmt insertSelectSQL 1 (Some selectOther) tableRef [] [] [] [].

(** A tree no parser produces, with an insert below an insert. *)
Definition nestedInsert : Node :=
  InsertStmt "outer" 1 None tableRef []
    [[InsertStmt "inner" 1 None tableRef [] [[leaf]; [leaf]; [leaf]] [] []];
     [leaf]; [leaf]] [] [].

Definition demoParse (statement charset collation : string)
  : list Node + (string * Z) :=
  if String.eqb statement insertValuesSQL then inl [insertValues]
  else if String.eqb statement insertSelectSQL then inl [insertSelect]
  else if String.eqb statement "SELECT 1" then inl [OtherNode "SELECT 1" 1 [leaf]]
  else inr ("syntax error near " ++ statement, 1).

Definition demoLevel (level : string) : Status + error :=
  if String.eqb level "ERROR" then inl Error
  else if String.eqb level "WARNING" then inl Warn
  else inr (Errorf ("unexpected rule level type: " ++ level)).

(** Payloads are the decimal text of the number. *)
Definition demoPayload (payload : string) : NumberTypeRulePayload + error :=
  match ParseInt payload with
  | Some n => inl (mkNumberPayload n)
  | None => inr (Errorf "invalid number payload")
  end.

Definition demoQuery (cancelled : bool) (db : list value + error) (q : string)
    (log : list string) : (list value + error) * list string :=
  if cancelled then (inr (Errorf "context canceled"), log)
  else (db, q :: log).

#[export] Instance demo : Collaborators := {|
  World := list string;
  DB := list value + error;
  GoContext := bool;
  Query := demoQuery;
  Parse := demoParse;
  SyntaxErrorTitle := "Syntax error";
  NewStatusBySQLReviewRuleLevel := demoLevel;
  UnmarshalNumberTypeRulePayload := demoPayload;
  fmt_t := fun _ => "%!t"
|}.

Definition warnRule (payload : string) : SQLReviewRule :=
  mkRule "statement.insert.row-limit" "WARNING" payload.

Definition demoContext (payload : string) (db : option (list value + error))
  : Context :=
  mkContext "utf8mb4" "utf8mb4_general_ci" (warnRule payload) db false.

(** An EXPLAIN answer whose second row carries [rows] in column 9. *)
Definition explainAnswer (rows : value) : list value :=
  [VSlice []; VSlice [];
   VSlice [VSlice [VInt64 1; VString "INSERT"; VString "t"; VNil; VString "ALL";
                   VNil; VNil; VNil; VNil; VNil; VNil; VNil];
           VSlice [VInt64 1; VString "SIMPLE"; VString "other"; VNil; VString "ALL";
                   VNil; VNil; VNil; VNil; rows; VString "100.00"; VNil]]].

(** A checker as [Check] has it while it visits [insertValuesSQL] with
    threshold 2 and no database. *)
Definition checkerTwo : insertRowLimitChecker :=
  mkChecker [] Warn "statement.insert.row-limit" insertValuesSQL 1 2 None false.

(** A call whose context has been cancelled, with a handle attached. *)
Definition cancelledContext : Context :=
  mkContext "utf8mb4" "utf8mb4_general_ci" (warnRule "2")
            (Some (inl (explainAnswer (VInt64 7)))) true.

(** A call whose database refuses the query. *)
Definition refusedContext : Context :=
  demoContext "2" (Some (inr (Errorf "connection refused"))).

(** A call whose database answers with a result of one element. *)
Definition undecodableContext : Context :=
  demoContext "2" (Some (inl [VSlice []])).

End Demo.

Import Go advisor ast mysql.

(** ** The traversal of the checker *)

Section TraversalFacts.
Context `{Collaborators}.

Lemma Accept_unfold {S : Type} (v : Visitor S) (n : Node) (s : S) :
  Accept v n s =
  let (s1, skipChildren) := ast.Enter v n s in
  if skipChildren then ast.Leave v n s1
  else
    match n with
    | InsertStmt _ _ sel tbl cols lists setl dup =>
        andThen (match sel with
                 | Some x => Accept v x s1
                 | None => (s1, true)
                 end) (fun s2 =>
        andThen (Accept v tbl s2) (fun s3 =>
        andThen (AcceptEach v cols s3) (fun s4 =>
        andThen (AcceptRows v lists s4) (fun s5 =>
        andThen (AcceptEach v setl s5) (fun s6 =>
        andThen (AcceptEach v dup s6) (ast.Leave v n))))))
    | OtherNode _ _ ch => andThen (AcceptEach v ch s1) (ast.Leave v n)
    end.
Proof. destruct n; reflexivity. Qed.

Lemma preorder_unfold (n : Node) :
  preorder n =
  n :: match n with
       | InsertStmt _ _ sel tbl cols lists setl dup =>
           ((match sel with Some x => preorder x | None => [] end)
            ++ preorder tbl ++ preorderEach cols ++ preorderRows lists
            ++ preorderEach setl ++ preorderEach dup)%list
       | OtherNode _ _ ch => preorderEach ch
       end.
Proof. destruct n; reflexivity. Qed.

Lemma enterAll_app l1 l2 st :
  enterAll (l1 ++ l2)%list st = enterAll l2 (enterAll l1 st).
Proof. unfold enterAll. apply fold_left_app. Qed.

(** [Enter] never asks to skip the children. *)
Lemma Enter_descends (n : Node) st : snd (Enter n st) = false.
Proof.
  destruct st as [c w].
  destruct n as [t p [x|] tbl cols lists setl dup | t p ch]; simpl;
    repeat match goal with
           | |- context [match ?e with _ => _ end] => destruct e
           | |- context [if ?e then _ else _] => destruct e
           end; reflexivity.
Qed.

Lemma Enter_surj (n : Node) st : Enter n st = (fst (Enter n st), false).
Proof.
  rewrite <- (Enter_descends n st). destruct (Enter n st); reflexivity.
Qed.

Lemma AcceptEach_enterAll (l : list Node) :
  Forall (fun n => forall st,
              Accept checkerVisitor n st = (enterAll (preorder n) st, true)) l ->
  forall st,
    AcceptEach checkerVisitor l st = (enterAll (preorderEach l) st, true).
Proof.
  induction 1 as [|n l Hn _ IH]; intro st; simpl; [reflexivity|].
  rewrite Hn. simpl. rewrite IH, enterAll_app. reflexivity.
Qed.

Lemma AcceptRows_enterAll (ll : list (list Node)) :
  Forall (Forall (fun n => forall st,
              Accept checkerVisitor n st = (enterAll (preorder n) st, true))) ll ->
  forall st,
    AcceptRows checkerVisitor ll st = (enterAll (preorderRows ll) st, true).
Proof.
  induction 1 as [|r ll Hr _ IH]; intro st; simpl; [reflexivity|].
  rewrite (AcceptEach_enterAll r Hr). simpl.
  rewrite IH, enterAll_app. reflexivity.
Qed.

(** The checker enters every node of the statement, in order, and the
    traversal is never stopped. *)
Lemma Accept_enterAll (n : Node) :
  forall st, Accept checkerVisitor n st = (enterAll (preorder n) st, true).
Proof.
  induction n as [t p sel tbl cols lists setl dup Hsel Htbl Hcols Hlists Hsetl Hdup
                 | t p ch Hch] using Node_induction; intro st;
    rewrite Accept_unfold, preorder_unfold;
    change (ast.Enter checkerVisitor) with Enter;
    change (ast.Leave checkerVisitor) with Leave;
    rewrite (Enter_surj _ st); cbv iota beta.
  - change (enterAll (?x :: ?l) st) with (enterAll l (fst (Enter x st))).
    set (s1 := fst (Enter _ st)). clearbody s1.
    repeat rewrite enterAll_app.
    destruct sel as [x|].
    + rewrite (Hsel x eq_refl). simpl andThen.
      rewrite Htbl. simpl andThen.
      rewrite (AcceptEach_enterAll _ Hcols). simpl andThen.
      rewrite (AcceptRows_enterAll _ Hlists). simpl andThen.
      rewrite (AcceptEach_enterAll _ Hsetl). simpl andThen.
      rewrite (AcceptEach_enterAll _ Hdup). reflexivity.
    + simpl andThen.
      rewrite Htbl. simpl andThen.
      rewrite (AcceptEach_enterAll _ Hcols). simpl andThen.
      rewrite (AcceptRows_enterAll _ Hlists). simpl andThen.
      rewrite (AcceptEach_enterAll _ Hsetl). simpl andThen.
      rewrite (AcceptEach_enterAll _ Hdup). reflexivity.
  - change (enterAll (?x :: ?l) st) with (enterAll l (fst (Enter x st))).
    rewrite (AcceptEach_enterAll _ Hch). reflexivity.
Qed.

End TraversalFacts.

(** ** What one [Enter] does to the checker and to the database *)

Section EnterFacts.
Context `{Collaborators}.

(** Break the branches of [Enter] open. *)
Ltac enter_cases :=
  repeat match goal with
         | |- context [match ?e with _ => _ end] => destruct e eqn:?
         | |- context [if ?e then _ else _] => destruct e eqn:?
         end.

(** [Enter] touches nothing of the checker but its advice list. *)
Lemma Enter_fields (n : Node) c w :
  let c' := fst (fst (Enter n (c, w))) in
  c'.(level) = c.(level) /\ c'.(title) = c.(title) /\ c'.(text) = c.(text) /\
  c'.(line) = c.(line) /\ c'.(maxRow) = c.(maxRow) /\
  c'.(driver) = c.(driver) /\ c'.(ctx) = c.(ctx).
Proof.
  destruct n as [t p [x|] tbl cols lists setl dup | t p ch]; simpl;
    enter_cases; simpl; repeat split; congruence.
Qed.

(** One [Enter] appends at most one advice, and none unless the node is an
    insert statement. *)
Lemma Enter_appends (n : Node) c w :
  exists extra,
    (fst (fst (Enter n (c, w)))).(adviceList) = (c.(adviceList) ++ extra)%list /\
    (List.length extra <= if isInsertStmt n then 1 else 0)%nat.
Proof.
  destruct n as [t p [x|] tbl cols lists setl dup | t p ch]; simpl;
    enter_cases; simpl;
    solve [ eexists; split; [reflexivity | simpl; lia]
          | exists []; split; [symmetry; apply app_nil_r | simpl; lia] ].
Qed.

(** A node that is not an insert statement leaves the state as it is. *)
Lemma Enter_other (n : Node) st :
  isInsertStmt n = false -> fst (Enter n st) = st.
Proof.
  destruct st as [c w]. destruct n; simpl; [discriminate | reflexivity].
Qed.

(** Without a database handle no query is issued. *)
Lemma Enter_nohandle_world (n : Node) c w :
  c.(driver) = None -> snd (fst (Enter n (c, w))) = w.
Proof.
  intro Hd.
  destruct n as [t p [x|] tbl cols lists setl dup | t p ch]; simpl;
    try rewrite Hd; enter_cases; reflexivity.
Qed.

(** Without a database handle the checker after [Enter] depends neither on
    the database nor on the context. *)
Lemma Enter_nohandle_same (n : Node) c1 c2 w1 w2 :
  sameButCtx c1 c2 -> c1.(driver) = None ->
  sameButCtx (fst (fst (Enter n (c1, w1)))) (fst (fst (Enter n (c2, w2)))).
Proof.
  intros (Ha & Hl & Ht & Hx & Hp & Hm & Hd) Hnone.
  assert (Hnone2 : c2.(driver) = None) by congruence.
  destruct n as [t p [x|] tbl cols lists setl dup | t p ch]; simpl.
  - rewrite Hnone, Hnone2. simpl. repeat split; assumption.
  - rewrite <- Hm.
    destruct (len lists >? c1.(maxRow)); unfold sameButCtx; simpl;
      repeat split; congruence.
  - repeat split; assumption.
Qed.

(** An insert without a select and with more value lists than the
    threshold is reported, and the database is not consulted. *)
Lemma Enter_values_over t p tbl cols lists setl dup c w :
  len lists > c.(maxRow) ->
  Enter (InsertStmt t p None tbl cols lists setl dup) (c, w) =
  ((appendAdvice c
      (mkAdvice c.(level) InsertTooManyRows c.(title)
         (tooManyRowsContent c.(text) (len lists) c.(maxRow)) c.(line)), w),
   false).
Proof.
  intro Hgt. simpl.
  destruct (len lists >? c.(maxRow)) eqn:E; [reflexivity|].
  rewrite Z.gtb_ltb, Z.ltb_ge in E. lia.
Qed.

Lemma Enter_values_within t p tbl cols lists setl dup c w :
  len lists <= c.(maxRow) ->
  Enter (InsertStmt t p None tbl cols lists setl dup) (c, w) = ((c, w), false).
Proof.
  intro Hle. simpl.
  destruct (len lists >? c.(maxRow)) eqn:E; [|reflexivity].
  rewrite Z.gtb_ltb, Z.ltb_lt in E. lia.
Qed.

(** An insert from a select is left alone when there is no handle. *)
Lemma Enter_select_nohandle t p sel tbl cols lists setl dup c w :
  c.(driver) = None ->
  Enter (InsertStmt t p (Some sel) tbl cols lists setl dup) (c, w) = ((c, w), false).
Proof. intro Hd. simpl. rewrite Hd. reflexivity. Qed.

End EnterFacts.

(** ** The loop over the statements and [Check] *)

Section CheckFacts.
Context `{Collaborators}.

Lemma enterAll_cons n l st : enterAll (n :: l) st = enterAll l (fst (Enter n st)).
Proof. reflexivity. Qed.

Lemma enterAll_others l st :
  forallb (fun n => negb (isInsertStmt n)) l = true -> enterAll l st = st.
Proof.
  revert st. induction l as [|n l IH]; intros st Hl; [reflexivity|].
  simpl in Hl. apply andb_true_iff in Hl. destruct Hl as [Hn Hl].
  rewrite enterAll_cons, Enter_other; [apply IH; assumption|].
  destruct (isInsertStmt n); [discriminate | reflexivity].
Qed.

Lemma enterAll_appends l c w :
  exists extra,
    (fst (enterAll l (c, w))).(adviceList) = (c.(adviceList) ++ extra)%list /\
    (List.length extra <= List.length (filter isInsertStmt l))%nat.
Proof.
  revert c w. induction l as [|n l IH]; intros c w.
  - exists []. split; [symmetry; apply app_nil_r | simpl; lia].
  - rewrite enterAll_cons.
    destruct (Enter_appends n c w) as (e1 & He1 & Hl1).
    destruct (fst (Enter n (c, w))) as [c1 w1] eqn:E. simpl in He1.
    destruct (IH c1 w1) as (e2 & He2 & Hl2).
    exists (e1 ++ e2)%list. split.
    + rewrite He2, He1, app_assoc. reflexivity.
    + rewrite length_app. simpl. destruct (isInsertStmt n); simpl; lia.
Qed.

Lemma visitStatements_cons stmt rest c w :
  visitStatements (stmt :: rest) (c, w) =
  visitStatements rest
    (enterAll (preorder stmt)
       (setStatement c (Text stmt) (OriginTextPosition stmt), w)).
Proof. simpl. rewrite Accept_enterAll. reflexivity. Qed.

(** A property of the state that resetting the statement fields and
    entering a node of the script keep holds after the loop. *)
Lemma visitStatements_invariant (P : insertRowLimitChecker * World -> Prop)
    (stmtList : list Node) :
  (forall c w t l, P (c, w) -> P (setStatement c t l, w)) ->
  (forall n st, In n (flat_map preorder stmtList) -> P st -> P (fst (Enter n st))) ->
  forall st, P st -> P (visitStatements stmtList st).
Proof.
  intros Hset. induction stmtList as [|stmt rest IH]; intros Henter [c w] HP.
  - exact HP.
  - rewrite visitStatements_cons. apply IH.
    + intros n st Hin. apply Henter. simpl. apply in_or_app. right. exact Hin.
    + assert (Hpre : forall l st, incl l (preorder stmt) -> P st -> P (enterAll l st)).
      { induction l as [|n l IHl]; intros st Hincl Hst; [exact Hst|].
        rewrite enterAll_cons. apply IHl.
        - intros x Hx. apply Hincl. right. exact Hx.
        - apply Henter; [|exact Hst]. simpl. apply in_or_app. left.
          apply Hincl. left. reflexivity. }
      apply Hpre; [apply incl_refl | apply Hset; exact HP].
Qed.

(** Two runs of the loop without a handle, on any two databases and under
    any two contexts, end with the same advice. *)
Lemma visitStatements_nohandle_same (stmtList : list Node) :
  forall c1 c2 w1 w2,
    sameButCtx c1 c2 -> c1.(driver) = None ->
    sameButCtx (fst (visitStatements stmtList (c1, w1)))
               (fst (visitStatements stmtList (c2, w2))).
Proof.
  assert (Hall : forall l c1 c2 w1 w2,
             sameButCtx c1 c2 -> c1.(driver) = None ->
             sameButCtx (fst (enterAll l (c1, w1))) (fst (enterAll l (c2, w2))) /\
             (fst (enterAll l (c1, w1))).(driver) = None).
  { induction l as [|n l IHl]; intros c1 c2 w1 w2 Hs Hd; [split; assumption|].
    rewrite !enterAll_cons.
    pose proof (Enter_nohandle_same n c1 c2 w1 w2 Hs Hd) as Hs'.
    pose proof (Enter_fields n c1 w1) as (_ & _ & _ & _ & _ & Hd' & _).
    destruct (fst (Enter n (c1, w1))) as [c1' w1'].
    destruct (fst (Enter n (c2, w2))) as [c2' w2'].
    apply IHl; [exact Hs' | simpl in Hd'; congruence]. }
  induction stmtList as [|stmt rest IH]; intros c1 c2 w1 w2 Hs Hd; [exact Hs|].
  rewrite !visitStatements_cons.
  set (t := Text stmt). set (p := OriginTextPosition stmt).
  assert (Hs0 : sameButCtx (setStatement c1 t p) (setStatement c2 t p)).
  { destruct Hs as (Ha & Hl & Ht & _ & _ & Hm & Hdr).
    unfold sameButCtx; simpl. repeat split; assumption. }
  destruct (Hall (preorder stmt) _ _ w1 w2 Hs0 Hd) as [Hs1 Hd1].
  destruct (enterAll (preorder stmt) (setStatement c1 t p, w1)) as [c1' w1'].
  destruct (enterAll (preorder stmt) (setStatement c2 t p, w2)) as [c2' w2'].
  apply IH; assumption.
Qed.

(** Without a handle the loop leaves the database alone. *)
Lemma visitStatements_nohandle_world (stmtList : list Node) c w :
  c.(driver) = None -> snd (visitStatements stmtList (c, w)) = w.
Proof.
  intro Hd.
  apply (visitStatements_invariant
           (fun st => (fst st).(driver) = None /\ snd st = w)); cbv beta.
  - intros c0 w0 t l [Hd0 Hw0]. split; assumption.
  - intros n [c0 w0] _ [Hd0 Hw0]. cbn [fst snd] in Hd0, Hw0. split.
    + pose proof (Enter_fields n c0 w0) as (_ & _ & _ & _ & _ & Hd' & _).
      rewrite Hd'. exact Hd0.
    + rewrite (Enter_nohandle_world n c0 w0 Hd0). exact Hw0.
  - split; [exact Hd | reflexivity].
Qed.

(** A statement that is an insert and holds no other insert is decided
    by the one [Enter] on its root. *)
Lemma visitStatements_single stmt c w :
  isInsertStmt stmt = true -> countInsertStmt stmt = 1%nat ->
  visitStatements [stmt] (c, w) =
  fst (Enter stmt (setStatement c (Text stmt) (OriginTextPosition stmt), w)).
Proof.
  intros Hins Hcount. rewrite visitStatements_cons. simpl visitStatements.
  unfold countInsertStmt in Hcount. rewrite preorder_unfold in Hcount |- *.
  rewrite enterAll_cons. simpl filter in Hcount. rewrite Hins in Hcount.
  simpl in Hcount. apply enterAll_others.
  injection Hcount as Hcount. apply length_zero_iff_nil in Hcount.
  set (l := match stmt with InsertStmt _ _ _ _ _ _ _ _ => _ | OtherNode _ _ _ => _ end)
    in Hcount |- *.
  clearbody l. induction l as [|n l IH]; [reflexivity|].
  simpl in Hcount |- *. destruct (isInsertStmt n); [discriminate|].
  simpl. apply IH. exact Hcount.
Qed.

(** [Check] once the script has parsed and the level and the payload have
    been decoded. *)
Lemma Check_decoded ctx statement w stmtList lvl payload :
  Parse statement ctx.(Charset) ctx.(Collation) = inl stmtList ->
  NewStatusBySQLReviewRuleLevel ctx.(Rule).(RLevel) = inl lvl ->
  UnmarshalNumberTypeRulePayload ctx.(Rule).(RPayload) = inl payload ->
  Check ctx statement w =
  let st := if payload.(Number) >? 0
            then visitStatements stmtList (newChecker ctx lvl payload, w)
            else (newChecker ctx lvl payload, w) in
  ((match (fst st).(adviceList) with
    | [] => [okAdvice]
    | a :: l => a :: l
    end, None), snd st).
Proof.
  intros HP HL HU. unfold Check, parseStatement. rewrite HP, HL, HU.
  cbv zeta.
  destruct (if payload.(Number) >? 0
            then visitStatements stmtList (newChecker ctx lvl payload, w)
            else (newChecker ctx lvl payload, w)) as [c w'].
  destruct c as [al ? ? ? ? ? ? ?]. destruct al as [|a l]; reflexivity.
Qed.

End CheckFacts.

(** ** The advice list of a call that is not aborted *)

Section CheckResults.
Context `{Collaborators}.

(** C1.  Whenever [Check] returns without an error its advice list holds at
    least one advice; and when the script parsed, the level and the payload
    were decoded and the traversal of the statements (which only runs for a
    positive threshold) has appended nothing, the list is exactly the one
    advice Success / Ok / OK with empty content, otherwise it is what the
    traversal appended. *)
Theorem C1_advice_list_never_empty ctx statement w advs :
  fst (Check ctx statement w) = (advs, None) ->
  (1 <= List.length advs)%nat /\
  (forall stmtList lvl payload,
      Parse statement ctx.(Charset) ctx.(Collation) = inl stmtList ->
      NewStatusBySQLReviewRuleLevel ctx.(Rule).(RLevel) = inl lvl ->
      UnmarshalNumberTypeRulePayload ctx.(Rule).(RPayload) = inl payload ->
      let traversed :=
        (fst (if payload.(Number) >? 0
              then visitStatements stmtList (newChecker ctx lvl payload, w)
              else (newChecker ctx lvl payload, w))).(adviceList) in
      (traversed = [] ->
       advs = [mkAdvice Success Ok "OK" EmptyString 0]) /\
      (traversed <> [] -> advs = traversed)).
Proof.
  intro Hret.
  destruct (Parse statement ctx.(Charset) ctx.(Collation))
    as [stmtList | [msg pos]] eqn:HP.
  - destruct (NewStatusBySQLReviewRuleLevel ctx.(Rule).(RLevel))
      as [lvl | e] eqn:HL.
    + destruct (UnmarshalNumberTypeRulePayload ctx.(Rule).(RPayload))
        as [payload | e] eqn:HU.
      * rewrite (Check_decoded _ _ _ _ _ _ HP HL HU) in Hret.
        cbv zeta in Hret. cbn [fst snd] in Hret.
        injection Hret as Hadvs.
        split.
        -- rewrite <- Hadvs.
           destruct (adviceList _) as [|a l]; simpl; lia.
        -- intros stmtList' lvl' payload' E1 E2 E3.
           injection E1 as <-. injection E2 as <-. injection E3 as <-.
           cbv zeta. rewrite <- Hadvs.
           destruct (adviceList _) as [|a l]; split; intro Hl;
             solve [reflexivity | discriminate | congruence].
      * unfold Check, parseStatement in Hret. rewrite HP, HL, HU in Hret.
        discriminate.
    + unfold Check, parseStatement in Hret. rewrite HP, HL in Hret.
      discriminate.
  - unfold Check, parseStatement in Hret. rewrite HP in Hret.
    injection Hret as <-. split; [simpl; lia | discriminate].
Qed.

(** C2.  When the script does not parse, [Check] returns the adapter's one
    Error advice with the syntax code and the parser's line, no error, and
    the database untouched; the result is the same for every rule (type,
    level, payload), handle and context of the call, so neither the level
    nor the payload decoder nor the traversal takes part in it. *)
Theorem C2_syntax_error_aborts_script ctx statement w msg pos :
  Parse statement ctx.(Charset) ctx.(Collation) = inr (msg, pos) ->
  Check ctx statement w =
  (([mkAdvice Error StatementSyntaxError SyntaxErrorTitle msg pos], None), w) /\
  (forall rule handle goctx w',
      fst (Check (mkContext ctx.(Charset) ctx.(Collation) rule handle goctx)
                 statement w') =
      fst (Check ctx statement w)).
Proof.
  intro HP. unfold Check, parseStatement. simpl. rewrite HP.
  split; reflexivity.
Qed.

(** C7, as the code has it.  When the script parses and the payload of the
    rule cannot be decoded, [Check] returns an error and the nil advice
    list and leaves the database alone; the error is the payload decoder's
    whenever the level of the rule maps to a status. *)
Theorem C7_malformed_payload_is_error ctx statement w stmtList err :
  Parse statement ctx.(Charset) ctx.(Collation) = inl stmtList ->
  UnmarshalNumberTypeRulePayload ctx.(Rule).(RPayload) = inr err ->
  exists e,
    Check ctx statement w = (([], Some e), w) /\
    (forall lvl,
        NewStatusBySQLReviewRuleLevel ctx.(Rule).(RLevel) = inl lvl -> e = err).
Proof.
  intros HP HU. unfold Check, parseStatement. rewrite HP.
  destruct (NewStatusBySQLReviewRuleLevel ctx.(Rule).(RLevel)) as [lvl | e].
  - rewrite HU. exists err. split; [reflexivity | intros; reflexivity].
  - exists e. split; [reflexivity | intros; discriminate].
Qed.

(** C9.  Two runs of [Check] on the same script, charset, collation and
    rule, both without a database handle, return the same advice list and
    the same error, whatever the state of the database and the context of
    each run; and neither run touches the database. *)
Theorem C9_deterministic_without_handle ctx1 ctx2 statement w1 w2 :
  ctx1.(Charset) = ctx2.(Charset) ->
  ctx1.(Collation) = ctx2.(Collation) ->
  ctx1.(Rule) = ctx2.(Rule) ->
  ctx1.(Driver) = None ->
  ctx2.(Driver) = None ->
  fst (Check ctx1 statement w1) = fst (Check ctx2 statement w2) /\
  snd (Check ctx1 statement w1) = w1 /\
  snd (Check ctx2 statement w2) = w2.
Proof.
  intros Hcs Hco Hr Hd1 Hd2.
  assert (Hworld : forall ctx w, ctx.(Driver) = None ->
                                 snd (Check ctx statement w) = w).
  { intros ctx w Hd. unfold Check, parseStatement.
    destruct (Parse statement ctx.(Charset) ctx.(Collation)) as [l | [m p]];
      [|reflexivity].
    destruct (NewStatusBySQLReviewRuleLevel _) as [lvl|e]; [|reflexivity].
    destruct (UnmarshalNumberTypeRulePayload _) as [payload|e]; [|reflexivity].
    destruct (payload.(Number) >? 0).
    - pose proof (visitStatements_nohandle_world l
                    (newChecker ctx lvl payload) w Hd) as Hw.
      destruct (visitStatements l (newChecker ctx lvl payload, w)) as [c w'].
      exact Hw.
    - reflexivity. }
  split; [|split; apply Hworld; assumption].
  unfold Check, parseStatement. rewrite <- Hcs, <- Hco, <- Hr.
  destruct (Parse statement ctx1.(Charset) ctx1.(Collation)) as [l | [m p]];
    [|reflexivity].
  destruct (NewStatusBySQLReviewRuleLevel _) as [lvl|e]; [|reflexivity].
  destruct (UnmarshalNumberTypeRulePayload _) as [payload|e]; [|reflexivity].
  assert (Hsame : sameButCtx (newChecker ctx1 lvl payload)
                             (newChecker ctx2 lvl payload)).
  { unfold sameButCtx, newChecker; simpl. rewrite Hr, Hd1, Hd2.
    repeat split; reflexivity. }
  destruct (payload.(Number) >? 0).
  - pose proof (visitStatements_nohandle_same l _ _ w1 w2 Hsame Hd1) as Hs.
    destruct (visitStatements l (newChecker ctx1 lvl payload, w1)) as [c1 w1'].
    destruct (visitStatements l (newChecker ctx2 lvl payload, w2)) as [c2 w2'].
    destruct Hs as (Ha & _). cbn [fst] in Ha.
    destruct c1 as [a1 ? ? ? ? ? ? ?], c2 as [a2 ? ? ? ? ? ? ?].
    simpl in Ha. subst a2. destruct a1; reflexivity.
  - reflexivity.
Qed.

(** C10.  When the script parses and the rule decodes to a threshold that
    is zero or negative, [Check] returns exactly the one Success / Ok
    advice and leaves the database alone, whatever statements the script
    holds and whether or not a handle is attached: no statement is
    visited. *)
Theorem C10_nonpositive_threshold_disables ctx statement w stmtList lvl payload :
  Parse statement ctx.(Charset) ctx.(Collation) = inl stmtList ->
  NewStatusBySQLReviewRuleLevel ctx.(Rule).(RLevel) = inl lvl ->
  UnmarshalNumberTypeRulePayload ctx.(Rule).(RPayload) = inl payload ->
  payload.(Number) <= 0 ->
  Check ctx statement w =
  (([mkAdvice Success Ok "OK" EmptyString 0], None), w).
Proof.
  intros HP HL HU Hn. rewrite (Check_decoded _ _ _ _ _ _ HP HL HU).
  destruct (payload.(Number) >? 0) eqn:E.
  - rewrite Z.gtb_ltb, Z.ltb_lt in E. lia.
  - reflexivity.
Qed.

End CheckResults.

(** ** Findings of the traversal *)

Section Findings.
Context `{Collaborators}.

Lemma visitStatements_app l1 l2 st :
  visitStatements (l1 ++ l2)%list st = visitStatements l2 (visitStatements l1 st).
Proof.
  revert st. induction l1 as [|stmt l1 IH]; intros [c w]; [reflexivity|].
  simpl app. rewrite !visitStatements_cons. apply IH.
Qed.

(** The loop changes nothing of the checker's configuration. *)
Lemma visitStatements_fields stmtList c w :
  let c' := fst (visitStatements stmtList (c, w)) in
  c'.(level) = c.(level) /\ c'.(title) = c.(title) /\
  c'.(maxRow) = c.(maxRow) /\ c'.(driver) = c.(driver) /\ c'.(ctx) = c.(ctx).
Proof.
  cbv zeta.
  apply (visitStatements_invariant
           (fun st => (fst st).(level) = c.(level) /\ (fst st).(title) = c.(title) /\
                      (fst st).(maxRow) = c.(maxRow) /\
                      (fst st).(driver) = c.(driver) /\ (fst st).(ctx) = c.(ctx)));
    cbv beta.
  - intros c0 w0 t l Hc0. exact Hc0.
  - intros n [c0 w0] _ (H1 & H2 & H3 & H4 & H5). cbn [fst] in *.
    pose proof (Enter_fields n c0 w0) as (E1 & E2 & _ & _ & E3 & E4 & E5).
    rewrite E1, E2, E3, E4, E5. repeat split; assumption.
  - repeat split; reflexivity.
Qed.

(** Advice once appended stays in the list. *)
Lemma enterAll_keeps l c w a :
  In a c.(adviceList) -> In a (fst (enterAll l (c, w))).(adviceList).
Proof.
  intro Hin. destruct (enterAll_appends l c w) as (extra & He & _).
  rewrite He. apply in_or_app. left. exact Hin.
Qed.

Lemma visitStatements_keeps stmtList c w a :
  In a c.(adviceList) -> In a (fst (visitStatements stmtList (c, w))).(adviceList).
Proof.
  intro Hin.
  apply (visitStatements_invariant (fun st => In a (fst st).(adviceList)));
    cbv beta.
  - intros c0 w0 t l Hc0. exact Hc0.
  - intros n [c0 w0] _ Hc0. cbn [fst] in *.
    destruct (Enter_appends n c0 w0) as (extra & He & _).
    rewrite He. apply in_or_app. left. exact Hc0.
  - exact Hin.
Qed.

(** Without a handle, a node that is not an insert of value lists leaves
    the state as it is. *)
Lemma Enter_nohandle_not_values n c w :
  c.(driver) = None -> isValuesInsert n = false -> fst (Enter n (c, w)) = (c, w).
Proof.
  intros Hd Hv.
  destruct n as [t p [x|] tbl cols lists setl dup | t p ch]; simpl in *.
  - rewrite Hd. reflexivity.
  - discriminate.
  - reflexivity.
Qed.

Lemma enterAll_nohandle_not_values l c w :
  c.(driver) = None ->
  forallb (fun n => negb (isValuesInsert n)) l = true ->
  enterAll l (c, w) = (c, w).
Proof.
  intro Hd. induction l as [|n l IH]; intro Hl; [reflexivity|].
  simpl in Hl. apply andb_true_iff in Hl. destruct Hl as [Hn Hl].
  rewrite enterAll_cons, Enter_nohandle_not_values; auto.
  destruct (isValuesInsert n); [discriminate | reflexivity].
Qed.

(** C3, as the code has it.  Let the script parse into statements among
    which [stmt] is an insert from a select, let a handle be attached and
    the threshold be positive, and let [r] be the answer to the EXPLAIN of
    [stmt], issued in the state the earlier statements left the database
    in.  Then [Check] returns no error; if the query failed, its advice
    list holds an advice at the rule's status with the code
    InsertTooManyRows and the dry-run message; if the query succeeded and
    its result cannot be decoded, the list holds an advice at the rule's
    status with the code Internal. *)
Theorem C3_dynamic_failures_become_advice
    ctx statement w pre post t p sel tbl cols lists setl dup db lvl payload r w' :
  Parse statement ctx.(Charset) ctx.(Collation) =
    inl (pre ++ InsertStmt t p (Some sel) tbl cols lists setl dup :: post)%list ->
  NewStatusBySQLReviewRuleLevel ctx.(Rule).(RLevel) = inl lvl ->
  UnmarshalNumberTypeRulePayload ctx.(Rule).(RPayload) = inl payload ->
  payload.(Number) > 0 ->
  ctx.(Driver) = Some db ->
  Query ctx.(Ctx) db ("EXPLAIN " ++ t)
        (snd (visitStatements pre (newChecker ctx lvl payload, w))) = (r, w') ->
  snd (fst (Check ctx statement w)) = None /\
  (forall err, r = inr err ->
      In (mkAdvice lvl InsertTooManyRows ctx.(Rule).(RType)
            (dryRunFailedContent t err) p)
         (fst (fst (Check ctx statement w)))) /\
  (forall res err, r = inl res -> getInsertRows res = inr err ->
      In (mkAdvice lvl Internal ctx.(Rule).(RType)
            (rowCountFailedContent t err) p)
         (fst (fst (Check ctx statement w)))).
Proof.
  intros HP HL HU Hn Hd HQ.
  rewrite (Check_decoded _ _ _ _ _ _ HP HL HU). cbv zeta.
  assert (E : (payload.(Number) >? 0) = true)
    by (rewrite Z.gtb_ltb, Z.ltb_lt; lia).
  rewrite E. cbn [fst snd]. split; [reflexivity|].
  rewrite visitStatements_app.
  pose proof (visitStatements_fields pre (newChecker ctx lvl payload) w)
    as (F1 & F2 & _ & F4 & F5). cbv zeta in F1, F2, F4, F5.
  destruct (visitStatements pre (newChecker ctx lvl payload, w)) as [c1 w1].
  cbn [fst snd] in *. simpl in F1, F2, F4, F5.
  rewrite visitStatements_cons, preorder_unfold, enterAll_cons.
  cbn [Text OriginTextPosition].
  match goal with
  | |- context [enterAll ?l (fst (Enter ?n ?s))] =>
      set (rest := l); set (stmt := n); set (st0 := s)
  end.
  assert (Hkeep : forall a,
             In a (fst (fst (Enter stmt st0))).(adviceList) ->
             In a match (fst (visitStatements post
                                (enterAll rest (fst (Enter stmt st0))))).(adviceList)
                  with
                  | [] => [okAdvice]
                  | a0 :: l => a0 :: l
                  end).
  { intros a Ha.
    destruct (fst (Enter stmt st0)) as [c2 w2]. cbn [fst] in Ha.
    pose proof (enterAll_keeps rest c2 w2 a Ha) as Hk.
    destruct (enterAll rest (c2, w2)) as [c3 w3]. cbn [fst] in Hk.
    pose proof (visitStatements_keeps post c3 w3 a Hk) as Hk'.
    destruct (adviceList (fst (visitStatements post (c3, w3)))) as [|a0 l];
      [destruct Hk' | exact Hk']. }
  assert (HE : fst (Enter stmt st0) =
               match r with
               | inr err =>
                   (appendAdvice (setStatement c1 t p)
                      (mkAdvice lvl InsertTooManyRows ctx.(Rule).(RType)
                         (dryRunFailedContent t err) p), w')
               | inl res =>
                   match getInsertRows res with
                   | inr err =>
                       (appendAdvice (setStatement c1 t p)
                          (mkAdvice lvl Internal ctx.(Rule).(RType)
                             (rowCountFailedContent t err) p), w')
                   | inl rowCount =>
                       if rowCount >? int64 c1.(maxRow)
                       then (appendAdvice (setStatement c1 t p)
                               (mkAdvice lvl InsertTooManyRows ctx.(Rule).(RType)
                                  (tooManyRowsContent t rowCount c1.(maxRow)) p), w')
                       else (setStatement c1 t p, w')
                   end
               end).
  { unfold stmt, st0. simpl. simpl in HQ. rewrite F4, F5, F1, F2, Hd, HQ.
    destruct r as [res | err]; [|reflexivity].
    destruct (getInsertRows res) as [rowCount | err]; [|reflexivity].
    destruct (rowCount >? int64 c1.(maxRow)); reflexivity. }
  split.
  - intros err ->. apply Hkeep. rewrite HE. cbn [fst appendAdvice adviceList].
    apply in_or_app. right. left. reflexivity.
  - intros res err -> Hdec. apply Hkeep. rewrite HE, Hdec.
    cbn [fst appendAdvice adviceList].
    apply in_or_app. right. left. reflexivity.
Qed.

End Findings.

Section StaticFindings.
Context `{Collaborators}.

(** C4.  Let the script [INSERT INTO t(id) VALUES (1),(2),(3)] parse into
    one insert statement at line 1 with three value lists, no select and no
    further insert inside, and let the rule decode to the status Warning
    and the threshold 2.  Then [Check] returns exactly one advice: Warning,
    InsertTooManyRows, line 1, with a content that names 3 rows and the
    threshold 2; the database is not consulted. *)
Theorem C4_three_rows_over_threshold_two
    ctx w tbl cols r1 r2 r3 setl dup :
  Parse "INSERT INTO t(id) VALUES (1),(2),(3)" ctx.(Charset) ctx.(Collation) =
    inl [InsertStmt "INSERT INTO t(id) VALUES (1),(2),(3)" 1 None tbl cols
           [r1; r2; r3] setl dup] ->
  countInsertStmt (InsertStmt "INSERT INTO t(id) VALUES (1),(2),(3)" 1 None
                     tbl cols [r1; r2; r3] setl dup) = 1%nat ->
  NewStatusBySQLReviewRuleLevel ctx.(Rule).(RLevel) = inl Warn ->
  UnmarshalNumberTypeRulePayload ctx.(Rule).(RPayload) = inl (mkNumberPayload 2) ->
  Check ctx "INSERT INTO t(id) VALUES (1),(2),(3)" w =
  (([mkAdvice Warn InsertTooManyRows ctx.(Rule).(RType)
       (dquote ++ "INSERT INTO t(id) VALUES (1),(2),(3)" ++ dquote
        ++ " inserts 3 rows. The count exceeds 2.") 1], None), w).
Proof.
  intros HP Hc HL HU.
  rewrite (Check_decoded _ _ _ _ _ _ HP HL HU). cbv zeta.
  change (Number (mkNumberPayload 2) >? 0) with true. cbv iota.
  rewrite (visitStatements_single
             (InsertStmt "INSERT INTO t(id) VALUES (1),(2),(3)" 1 None tbl cols
                [r1; r2; r3] setl dup) _ _ eq_refl Hc).
  rewrite Enter_values_over; [reflexivity|].
  simpl. unfold len. simpl. lia.
Qed.

(** C5.  Let [stmt] be an insert statement that takes its rows from a
    select.  A checker without a database handle appends no advice when it
    enters [stmt] and issues no query; when no insert of value lists sits
    anywhere inside [stmt], the whole visit of [stmt] appends no advice;
    and when such a [stmt] is all the script parses into, [Check] returns
    the one Success / Ok advice only. *)
Theorem C5_insert_select_without_handle stmt :
  isInsertStmt stmt = true ->
  isValuesInsert stmt = false ->
  (forall c w, c.(driver) = None -> Enter stmt (c, w) = ((c, w), false)) /\
  (forall c w,
      c.(driver) = None ->
      forallb (fun n => negb (isValuesInsert n)) (preorder stmt) = true ->
      Accept checkerVisitor stmt (c, w) = ((c, w), true)) /\
  (forall ctx statement w lvl payload,
      ctx.(Driver) = None ->
      forallb (fun n => negb (isValuesInsert n)) (preorder stmt) = true ->
      Parse statement ctx.(Charset) ctx.(Collation) = inl [stmt] ->
      NewStatusBySQLReviewRuleLevel ctx.(Rule).(RLevel) = inl lvl ->
      UnmarshalNumberTypeRulePayload ctx.(Rule).(RPayload) = inl payload ->
      Check ctx statement w =
      (([mkAdvice Success Ok "OK" EmptyString 0], None), w)).
Proof.
  intros Hins Hsel. split; [|split].
  - intros c w Hd. rewrite (Enter_surj stmt (c, w)).
    rewrite Enter_nohandle_not_values; auto.
  - intros c w Hd Hall. rewrite Accept_enterAll.
    rewrite enterAll_nohandle_not_values; auto.
  - intros ctx statement w lvl payload Hd Hall HP HL HU.
    rewrite (Check_decoded _ _ _ _ _ _ HP HL HU). cbv zeta.
    destruct (payload.(Number) >? 0); [|reflexivity].
    rewrite visitStatements_cons. simpl visitStatements.
    rewrite enterAll_nohandle_not_values; auto.
Qed.

(** C6, as the code has it.  [Enter] answers false to the question whether
    the children are to be skipped, for every node, matching or not; so
    [Accept] enters every node of the statement in order and is never
    stopped.  One [Enter] appends at most one advice, and a statement gets
    at most as many advice as it holds insert statements. *)
Theorem C6_enter_descends_one_finding_per_insert n c w :
  snd (Enter n (c, w)) = false /\
  Accept checkerVisitor n (c, w) = (enterAll (preorder n) (c, w), true) /\
  (exists extra,
      (fst (fst (Enter n (c, w)))).(adviceList) = (c.(adviceList) ++ extra)%list /\
      (List.length extra <= if isInsertStmt n then 1 else 0)%nat) /\
  (exists extra,
      (fst (fst (Accept checkerVisitor n (c, w)))).(adviceList) =
        (c.(adviceList) ++ extra)%list /\
      (List.length extra <= countInsertStmt n)%nat).
Proof.
  split; [apply Enter_descends|].
  split; [apply Accept_enterAll|].
  split; [apply Enter_appends|].
  rewrite Accept_enterAll. cbn [fst]. apply enterAll_appends.
Qed.

End StaticFindings.

(** ** The EXPLAIN decoder *)

Section Decoder.
Context `{Collaborators}.

Lemma int64_in_range z : in_int64 (int64 z).
Proof.
  unfold in_int64, int64, min_int64, max_int64.
  pose proof (Z.mod_pos_bound (z + 2 ^ 63) (2 ^ 64) ltac:(lia)). lia.
Qed.

Lemma ParseInt_in_range s n : ParseInt s = Some n -> in_int64 n.
Proof.
  unfold ParseInt. destruct s as [|c rest]; [discriminate|].
  cbv zeta. destruct (parse_unsigned _) as [un|]; [|discriminate].
  destruct (in_int64b _) eqn:E; [|discriminate].
  intro Hn. injection Hn as <-.
  unfold in_int64b in E. apply andb_true_iff in E. destruct E as [E1 E2].
  apply Z.leb_le in E1. apply Z.leb_le in E2. split; assumption.
Qed.

Lemma wf_value_nth l k : wf_value (VSlice l) -> wf_value (nth k l VNil).
Proof.
  revert k. induction l as [|x l IH]; intros k Hl.
  - destruct k; exact I.
  - destruct Hl as [Hx Hl]. destruct k as [|k]; [exact Hx | apply IH; exact Hl].
Qed.

Lemma len_eqb_3 {A} (l : list A) :
  (len l =? 3) = true -> exists a b c, l = [a; b; c].
Proof.
  unfold len. intro E. apply Z.eqb_eq in E.
  destruct l as [|a [|b [|c [|d l]]]]; simpl in E; try lia.
  exists a, b, c. reflexivity.
Qed.

(** C8.  [getInsertRows] returns a count exactly when the result has three
    elements, the third is a row list of at least two rows, the second of
    them is a row of twelve columns and column 9 of it is an [int] (then
    converted to [int64]), an [int64] (taken as it is) or a string that
    [strconv.ParseInt] reads in base 10 as a 64-bit integer (its value); in
    every other case it returns an error.  For well-formed values the count
    is a signed 64-bit integer. *)
Theorem C8_getInsertRows_positional res n :
  (getInsertRows res = inl n <->
   exists a b r0 rowTwo rest,
     res = [a; b; VSlice (r0 :: VSlice rowTwo :: rest)] /\
     List.length rowTwo = 12%nat /\
     ((exists z, nth 9 rowTwo VNil = VInt z /\ n = int64 z) \/
      nth 9 rowTwo VNil = VInt64 n \/
      (exists s, nth 9 rowTwo VNil = VString s /\ ParseInt s = Some n))) /\
  ((forall m, getInsertRows res <> inl m) -> exists err, getInsertRows res = inr err) /\
  (getInsertRows res = inl n -> Forall wf_value res -> in_int64 n).
Proof.
  assert (Hiff :
    getInsertRows res = inl n <->
    exists a b r0 rowTwo rest,
      res = [a; b; VSlice (r0 :: VSlice rowTwo :: rest)] /\
      List.length rowTwo = 12%nat /\
      ((exists z, nth 9 rowTwo VNil = VInt z /\ n = int64 z) \/
       nth 9 rowTwo VNil = VInt64 n \/
       (exists s, nth 9 rowTwo VNil = VString s /\ ParseInt s = Some n))).
  { split.
    - unfold getInsertRows.
      destruct (len res =? 3) eqn:E3; [|discriminate]. cbn [negb].
      apply len_eqb_3 in E3. destruct E3 as (a & b & c & ->). cbn [nth].
      destruct c as [| | | | | |rowList]; try discriminate.
      destruct (len rowList <? 2) eqn:E2; [discriminate|].
      destruct rowList as [|r0 [|r1 rest]];
        try (unfold len in E2; simpl in E2; discriminate).
      cbn [nth].
      destruct r1 as [| | | | | |rowTwo]; try discriminate.
      destruct (len rowTwo =? 12) eqn:E12; [|discriminate]. cbn [negb].
      unfold len in E12. apply Z.eqb_eq in E12.
      assert (Hlen : List.length rowTwo = 12%nat) by lia.
      intro Hres. exists a, b, r0, rowTwo, rest.
      split; [reflexivity|]. split; [exact Hlen|].
      destruct (nth 9 rowTwo VNil) as [| |z|z|s| |]; try discriminate.
      + left. exists z. split; [reflexivity|]. congruence.
      + right; left. congruence.
      + right; right. exists s. split; [reflexivity|].
        destruct (ParseInt s); [congruence | discriminate].
    - intros (a & b & r0 & rowTwo & rest & -> & Hlen & Hcol).
      unfold getInsertRows. cbn [nth]. unfold len at 1 2. cbn [List.length].
      change (negb (Z.of_nat 3 =? 3)) with false. cbv iota.
      assert (E2 : (len (r0 :: VSlice rowTwo :: rest) <? 2) = false)
        by (apply Z.ltb_ge; unfold len; cbn [List.length]; lia).
      rewrite E2. unfold len. rewrite Hlen.
      change (negb (Z.of_nat 12 =? 12)) with false. cbv iota.
      destruct Hcol as [(z & -> & ->) | [-> | (s & -> & ->)]]; reflexivity. }
  split; [exact Hiff|]. split.
  - intro Hno. destruct (getInsertRows res) as [m | err].
    + exfalso. apply (Hno m). reflexivity.
    + exists err. reflexivity.
  - intros Hres Hwf. apply Hiff in Hres.
    destruct Hres as (a & b & r0 & rowTwo & rest & -> & Hlen & Hcol).
    destruct Hcol as [(z & _ & ->) | [Hcol | (s & _ & Hs)]].
    + apply int64_in_range.
    + inversion Hwf as [|? ? _ Hwf1]. inversion Hwf1 as [|? ? _ Hwf2].
      inversion Hwf2 as [|? ? Hrows _].
      destruct Hrows as (_ & Hrow2 & _).
      pose proof (wf_value_nth rowTwo 9 Hrow2) as Hn.
      rewrite Hcol in Hn. exact Hn.
    + exact (ParseInt_in_range s n Hs).
Qed.

End Decoder.

(** ** Further properties of [Check]: errors and single statements *)

Section CheckOutcomes.
Context `{Collaborators}.

(** X1.  [Check] returns an error exactly when the script parses and
    either the level of the rule maps to no status (the error is the level
    decoder's, whatever the payload) or the level maps to a status and the
    payload cannot be decoded (the error is the payload decoder's).  A call
    that returns an error returns the nil advice list and has sent nothing
    to the database. *)
Theorem X1_check_error_exactly ctx statement w e :
  (snd (fst (Check ctx statement w)) = Some e <->
   exists stmtList,
     Parse statement ctx.(Charset) ctx.(Collation) = inl stmtList /\
     (NewStatusBySQLReviewRuleLevel ctx.(Rule).(RLevel) = inr e \/
      exists lvl,
        NewStatusBySQLReviewRuleLevel ctx.(Rule).(RLevel) = inl lvl /\
        UnmarshalNumberTypeRulePayload ctx.(Rule).(RPayload) = inr e)) /\
  (snd (fst (Check ctx statement w)) = Some e ->
   Check ctx statement w = (([], Some e), w)).
Proof.
  unfold Check, parseStatement.
  destruct (Parse statement ctx.(Charset) ctx.(Collation))
    as [stmtList | [msg pos]] eqn:HP.
  - destruct (NewStatusBySQLReviewRuleLevel ctx.(Rule).(RLevel))
      as [lvl | e1] eqn:HL.
    + destruct (UnmarshalNumberTypeRulePayload ctx.(Rule).(RPayload))
        as [payload | e2] eqn:HU.
      * cbv zeta.
        destruct (if payload.(Number) >? 0
                  then visitStatements stmtList (newChecker ctx lvl payload, w)
                  else (newChecker ctx lvl payload, w)) as [c w'].
        cbn [fst snd]. split.
        -- split; [discriminate|].
           intros (l & _ & [Hl | (lvl' & _ & Hu)]); discriminate.
        -- discriminate.
      * cbn [fst snd]. split.
        -- split.
           ++ intro He. exists stmtList. split; [reflexivity|].
              right. exists lvl. split; [reflexivity | congruence].
           ++ intros (l & _ & [Hl | (lvl' & _ & Hu)]); congruence.
        -- intro He. injection He as <-. reflexivity.
    + cbn [fst snd]. split.
      * split.
        -- intro He. exists stmtList. split; [reflexivity|]. left. congruence.
        -- intros (l & _ & [Hl | (lvl' & Hl & _)]); congruence.
      * intro He. injection He as <-. reflexivity.
  - cbn [fst snd]. split.
    + split; [discriminate|]. intros (l & Hl & _). discriminate.
    + discriminate.
Qed.

(** X2.  For a script that parses into one insert statement with value
    lists (and no further insert inside) and a rule with a positive
    threshold, [Check] reports the statement exactly when it has more value
    lists than the threshold: as many lists as the threshold pass.  The
    advice carries the rule's status and type and the statement's text,
    count and line.  The database is not consulted even when a handle is
    attached. *)
Theorem X2_values_insert_strictly_over_threshold
    ctx statement w t p tbl cols lists setl dup lvl payload :
  Parse statement ctx.(Charset) ctx.(Collation) =
    inl [InsertStmt t p None tbl cols lists setl dup] ->
  countInsertStmt (InsertStmt t p None tbl cols lists setl dup) = 1%nat ->
  NewStatusBySQLReviewRuleLevel ctx.(Rule).(RLevel) = inl lvl ->
  UnmarshalNumberTypeRulePayload ctx.(Rule).(RPayload) = inl payload ->
  payload.(Number) > 0 ->
  Check ctx statement w =
  ((if len lists >? payload.(Number)
    then [mkAdvice lvl InsertTooManyRows ctx.(Rule).(RType)
            (tooManyRowsContent t (len lists) payload.(Number)) p]
    else [mkAdvice Success Ok "OK" EmptyString 0], None), w).
Proof.
  intros HP Hc HL HU Hn.
  rewrite (Check_decoded _ _ _ _ _ _ HP HL HU). cbv zeta.
  assert (E : (payload.(Number) >? 0) = true)
    by (rewrite Z.gtb_ltb, Z.ltb_lt; lia).
  rewrite E.
  rewrite (visitStatements_single
             (InsertStmt t p None tbl cols lists setl dup) _ _ eq_refl Hc).
  cbn [Text OriginTextPosition].
  destruct (len lists >? payload.(Number)) eqn:Hcmp.
  - rewrite Enter_values_over; [reflexivity|].
    simpl. rewrite Z.gtb_ltb, Z.ltb_lt in Hcmp. lia.
  - rewrite Enter_values_within; [reflexivity|].
    simpl. rewrite Z.gtb_ltb, Z.ltb_ge in Hcmp. lia.
Qed.

(** X3.  For a script that parses into one insert from a select (and no
    further insert inside), checked with a handle and a positive threshold:
    when the EXPLAIN of the statement is answered and the answer decodes to
    a row count, [Check] reports the statement exactly when the count is
    above the threshold, citing that count; otherwise it returns the one
    Success advice.  The database is left as that one query left it. *)
Theorem X3_insert_select_estimate_over_threshold
    ctx statement w t p sel tbl cols lists setl dup db lvl payload res w' rowCount :
  Parse statement ctx.(Charset) ctx.(Collation) =
    inl [InsertStmt t p (Some sel) tbl cols lists setl dup] ->
  countInsertStmt (InsertStmt t p (Some sel) tbl cols lists setl dup) = 1%nat ->
  NewStatusBySQLReviewRuleLevel ctx.(Rule).(RLevel) = inl lvl ->
  UnmarshalNumberTypeRulePayload ctx.(Rule).(RPayload) = inl payload ->
  payload.(Number) > 0 ->
  ctx.(Driver) = Some db ->
  Query ctx.(Ctx) db ("EXPLAIN " ++ t) w = (inl res, w') ->
  getInsertRows res = inl rowCount ->
  Check ctx statement w =
  ((if rowCount >? int64 payload.(Number)
    then [mkAdvice lvl InsertTooManyRows ctx.(Rule).(RType)
            (tooManyRowsContent t rowCount payload.(Number)) p]
    else [mkAdvice Success Ok "OK" EmptyString 0], None), w').
Proof.
  intros HP Hc HL HU Hn Hd HQ Hrows.
  rewrite (Check_decoded _ _ _ _ _ _ HP HL HU). cbv zeta.
  assert (E : (payload.(Number) >? 0) = true)
    by (rewrite Z.gtb_ltb, Z.ltb_lt; lia).
  rewrite E.
  rewrite (visitStatements_single
             (InsertStmt t p (Some sel) tbl cols lists setl dup) _ _ eq_refl Hc).
  simpl. simpl in HQ. rewrite Hd, HQ, Hrows.
  destruct (rowCount >? int64 payload.(Number)); reflexivity.
Qed.

End CheckOutcomes.

(** ** Scripts the checker decides without a query *)

Section StaticScripts.
Context `{Collaborators}.

Lemma enterAll_fields l c w :
  let c' := fst (enterAll l (c, w)) in
  c'.(level) = c.(level) /\ c'.(title) = c.(title) /\ c'.(text) = c.(text) /\
  c'.(line) = c.(line) /\ c'.(maxRow) = c.(maxRow) /\
  c'.(driver) = c.(driver) /\ c'.(ctx) = c.(ctx).
Proof.
  cbv zeta. revert c w. induction l as [|n l IH]; intros c w.
  - simpl. repeat split; reflexivity.
  - rewrite enterAll_cons.
    pose proof (Enter_fields n c w) as (E1 & E2 & E3 & E4 & E5 & E6 & E7).
    destruct (fst (Enter n (c, w))) as [c1 w1]. cbn [fst] in *.
    destruct (IH c1 w1) as (I1 & I2 & I3 & I4 & I5 & I6 & I7).
    repeat split; congruence.
Qed.

(** Where no query is due, [Enter] appends the static finding of the node
    and leaves the database alone. *)
Lemma Enter_static n c w stmt :
  c.(driver) = None \/ isSelectInsert n = false ->
  c.(text) = Text stmt -> c.(line) = OriginTextPosition stmt ->
  (fst (fst (Enter n (c, w)))).(adviceList) =
    (c.(adviceList) ++ staticFinding c.(level) c.(title) c.(maxRow) stmt n)%list /\
  snd (fst (Enter n (c, w))) = w.
Proof.
  intros Hq Ht Hl.
  destruct n as [t p [x|] tbl cols lists setl dup | t p ch]; simpl.
  - destruct Hq as [Hd | Hs]; [|discriminate].
    rewrite Hd. simpl. rewrite app_nil_r. split; reflexivity.
  - rewrite <- Ht, <- Hl.
    destruct (len lists >? c.(maxRow)); simpl;
      [|rewrite app_nil_r]; split; reflexivity.
  - rewrite app_nil_r. split; reflexivity.
Qed.

Lemma enterAll_static l stmt :
  forall c w,
    c.(driver) = None \/ forallb (fun n => negb (isSelectInsert n)) l = true ->
    c.(text) = Text stmt -> c.(line) = OriginTextPosition stmt ->
    (fst (enterAll l (c, w))).(adviceList) =
      (c.(adviceList)
       ++ flat_map (staticFinding c.(level) c.(title) c.(maxRow) stmt) l)%list /\
    snd (enterAll l (c, w)) = w.
Proof.
  induction l as [|n l IH]; intros c w Hq Ht Hl.
  - simpl. rewrite app_nil_r. split; reflexivity.
  - rewrite enterAll_cons.
    assert (Hn : c.(driver) = None \/ isSelectInsert n = false).
    { destruct Hq as [Hd | Hall]; [left; exact Hd | right].
      simpl in Hall. apply andb_true_iff in Hall. destruct Hall as [Hn _].
      destruct (isSelectInsert n); [discriminate | reflexivity]. }
    destruct (Enter_static n c w stmt Hn Ht Hl) as [Ha Hw].
    pose proof (Enter_fields n c w) as (E1 & E2 & E3 & E4 & E5 & E6 & _).
    destruct (fst (Enter n (c, w))) as [c1 w1]. cbn [fst snd] in *. subst w1.
    assert (Hq1 : c1.(driver) = None \/
                  forallb (fun n => negb (isSelectInsert n)) l = true).
    { destruct Hq as [Hd | Hall]; [left; congruence | right].
      simpl in Hall. apply andb_true_iff in Hall. apply Hall. }
    destruct (IH c1 w Hq1 ltac:(congruence) ltac:(congruence)) as [Ha1 Hw1].
    split; [|exact Hw1].
    rewrite Ha1, Ha, E1, E2, E5. simpl flat_map. rewrite app_assoc. reflexivity.
Qed.

Lemma visitStatements_static stmtList :
  forall c w,
    c.(driver) = None \/
    forallb (fun n => negb (isSelectInsert n)) (flat_map preorder stmtList) = true ->
    (fst (visitStatements stmtList (c, w))).(adviceList) =
      (c.(adviceList) ++ staticFindings c.(level) c.(title) c.(maxRow) stmtList)%list /\
    snd (visitStatements stmtList (c, w)) = w.
Proof.
  induction stmtList as [|stmt rest IH]; intros c w Hq.
  - simpl. rewrite app_nil_r. split; reflexivity.
  - rewrite visitStatements_cons.
    set (c0 := setStatement c (Text stmt) (OriginTextPosition stmt)).
    assert (Hq0 : c0.(driver) = None \/
                  forallb (fun n => negb (isSelectInsert n)) (preorder stmt) = true).
    { destruct Hq as [Hd | Hall]; [left; exact Hd | right].
      simpl in Hall. rewrite forallb_app in Hall.
      apply andb_true_iff in Hall. apply Hall. }
    destruct (enterAll_static (preorder stmt) stmt c0 w Hq0 eq_refl eq_refl)
      as [Ha Hw].
    pose proof (enterAll_fields (preorder stmt) c0 w)
      as (E1 & E2 & _ & _ & E5 & E6 & _). cbv zeta in E1, E2, E5, E6.
    destruct (enterAll (preorder stmt) (c0, w)) as [c1 w1].
    cbn [fst snd] in *. subst w1.
    assert (Hq1 : c1.(driver) = None \/
                  forallb (fun n => negb (isSelectInsert n))
                          (flat_map preorder rest) = true).
    { destruct Hq as [Hd | Hall]; [left; rewrite E6; exact Hd | right].
      simpl in Hall. rewrite forallb_app in Hall.
      apply andb_true_iff in Hall. apply Hall. }
    destruct (IH c1 w Hq1) as [Ha1 Hw1].
    split; [|exact Hw1].
    rewrite Ha1, Ha, E1, E2, E5. unfold staticFindings. simpl flat_map.
    rewrite app_assoc. reflexivity.
Qed.

(** X4.  When no handle is attached, or the script holds no insert from a
    select, and the threshold is positive, the advice list of [Check] is,
    in the order of the statements and of the nodes inside each statement,
    one InsertTooManyRows advice for every insert with more value lists
    than the threshold, each with the text and the line of the statement
    it sits in; when there is none, the one Success advice.  The database
    is not consulted. *)
Theorem X4_static_advice_in_script_order ctx statement w stmtList lvl payload :
  Parse statement ctx.(Charset) ctx.(Collation) = inl stmtList ->
  NewStatusBySQLReviewRuleLevel ctx.(Rule).(RLevel) = inl lvl ->
  UnmarshalNumberTypeRulePayload ctx.(Rule).(RPayload) = inl payload ->
  payload.(Number) > 0 ->
  ctx.(Driver) = None \/
  forallb (fun n => negb (isSelectInsert n)) (flat_map preorder stmtList) = true ->
  Check ctx statement w =
  ((match staticFindings lvl ctx.(Rule).(RType) payload.(Number) stmtList with
    | [] => [mkAdvice Success Ok "OK" EmptyString 0]
    | a :: l => a :: l
    end, None), w).
Proof.
  intros HP HL HU Hn Hq.
  rewrite (Check_decoded _ _ _ _ _ _ HP HL HU). cbv zeta.
  assert (E : (payload.(Number) >? 0) = true)
    by (rewrite Z.gtb_ltb, Z.ltb_lt; lia).
  rewrite E.
  destruct (visitStatements_static stmtList (newChecker ctx lvl payload) w Hq)
    as [Ha Hw].
  rewrite Ha, Hw. reflexivity.
Qed.

End StaticScripts.

(** ** How findings accumulate over a script *)

Section Accumulation.
Context `{Collaborators}.

(** What [Enter] does with a node does not depend on the advice collected
    so far: it appends to it. *)
Lemma Enter_frame n (A : list Advice) c c0 w :
  c.(adviceList) = (A ++ c0.(adviceList))%list ->
  withoutAdvice c = withoutAdvice c0 ->
  (fst (fst (Enter n (c, w)))).(adviceList) =
    (A ++ (fst (fst (Enter n (c0, w)))).(adviceList))%list /\
  withoutAdvice (fst (fst (Enter n (c, w)))) =
    withoutAdvice (fst (fst (Enter n (c0, w)))) /\
  snd (fst (Enter n (c, w))) = snd (fst (Enter n (c0, w))).
Proof.
  destruct c as [a l t x p m d g], c0 as [a0 l0 t0 x0 p0 m0 d0 g0].
  unfold withoutAdvice. simpl. intros Ha Hf.
  injection Hf as -> -> -> -> -> -> ->. subst a.
  destruct n as [tx ps [s|] tbl cols lists setl dup | tx ps ch]; simpl.
  - destruct d0 as [db|]; [|repeat split; reflexivity].
    destruct (Query g0 db _ w) as [[res | err] w'];
      [|simpl; rewrite <- app_assoc; repeat split; reflexivity].
    destruct (getInsertRows res) as [rowCount | err];
      [|simpl; rewrite <- app_assoc; repeat split; reflexivity].
    destruct (rowCount >? int64 m0); simpl;
      [rewrite <- app_assoc|]; repeat split; reflexivity.
  - destruct (len lists >? m0); simpl;
      [rewrite <- app_assoc|]; repeat split; reflexivity.
  - repeat split; reflexivity.
Qed.

Lemma enterAll_frame l (A : list Advice) :
  forall c c0 w,
    c.(adviceList) = (A ++ c0.(adviceList))%list ->
    withoutAdvice c = withoutAdvice c0 ->
    (fst (enterAll l (c, w))).(adviceList) =
      (A ++ (fst (enterAll l (c0, w))).(adviceList))%list /\
    withoutAdvice (fst (enterAll l (c, w))) =
      withoutAdvice (fst (enterAll l (c0, w))) /\
    snd (enterAll l (c, w)) = snd (enterAll l (c0, w)).
Proof.
  induction l as [|n l IH]; intros c c0 w Ha Hf.
  - simpl. repeat split; assumption.
  - rewrite !enterAll_cons.
    destruct (Enter_frame n A c c0 w Ha Hf) as (Ha1 & Hf1 & Hw1).
    destruct (fst (Enter n (c, w))) as [c1 w1].
    destruct (fst (Enter n (c0, w))) as [c2 w2].
    cbn [fst snd] in *. subst w2. apply IH; assumption.
Qed.

Lemma visitStatements_frame stmtList (A : list Advice) :
  forall c c0 w,
    c.(adviceList) = (A ++ c0.(adviceList))%list ->
    withoutAdvice c = withoutAdvice c0 ->
    (fst (visitStatements stmtList (c, w))).(adviceList) =
      (A ++ (fst (visitStatements stmtList (c0, w))).(adviceList))%list /\
    snd (visitStatements stmtList (c, w)) = snd (visitStatements stmtList (c0, w)).
Proof.
  induction stmtList as [|stmt rest IH]; intros c c0 w Ha Hf.
  - simpl. split; [assumption | reflexivity].
  - rewrite !visitStatements_cons.
    set (t := Text stmt). set (p := OriginTextPosition stmt).
    assert (Ha0 : (setStatement c t p).(adviceList) =
                  (A ++ (setStatement c0 t p).(adviceList))%list) by exact Ha.
    assert (Hf0 : withoutAdvice (setStatement c t p) =
                  withoutAdvice (setStatement c0 t p)).
    { unfold withoutAdvice in *. simpl.
      injection Hf as E1 E2 _ _ E5 E6 E7. congruence. }
    destruct (enterAll_frame (preorder stmt) A _ _ w Ha0 Hf0) as (Ha1 & Hf1 & Hw1).
    destruct (enterAll (preorder stmt) (setStatement c t p, w)) as [c1 w1].
    destruct (enterAll (preorder stmt) (setStatement c0 t p, w)) as [c2 w2].
    cbn [fst snd] in *. subst w2. apply IH; assumption.
Qed.

(** X5.  Visiting the statements [l1 ++ l2] gives the advice of [l1]
    followed by the advice of [l2], where [l2] is visited by a checker that
    starts without advice on the database as [l1] left it: what was found
    before changes nothing of what is found later, and advice comes in
    statement order. *)
Theorem X5_findings_concatenate l1 l2 c w :
  (fst (visitStatements (l1 ++ l2) (c, w))).(adviceList) =
    ((fst (visitStatements l1 (c, w))).(adviceList)
     ++ (fst (visitStatements l2
                (withoutAdvice (fst (visitStatements l1 (c, w))),
                 snd (visitStatements l1 (c, w))))).(adviceList))%list /\
  snd (visitStatements (l1 ++ l2) (c, w)) =
    snd (visitStatements l2
           (withoutAdvice (fst (visitStatements l1 (c, w))),
            snd (visitStatements l1 (c, w)))).
Proof.
  rewrite visitStatements_app.
  destruct (visitStatements l1 (c, w)) as [c1 w1]. cbn [fst snd].
  apply visitStatements_frame.
  - simpl. rewrite app_nil_r. reflexivity.
  - reflexivity.
Qed.

(** Every advice [Enter] appends carries the checker's level, title and
    line, and the code InsertTooManyRows or, only with a handle, Internal. *)
Lemma Enter_advice_shape n c w :
  exists extra,
    (fst (fst (Enter n (c, w)))).(adviceList) = (c.(adviceList) ++ extra)%list /\
    Forall (fun a => AStatus a = c.(level) /\ ATitle a = c.(title) /\
                     ALine a = c.(line) /\
                     (ACode a = InsertTooManyRows \/
                      (ACode a = Internal /\ c.(driver) <> None))) extra.
Proof.
  destruct n as [tx ps [s|] tbl cols lists setl dup | tx ps ch]; simpl.
  - destruct (driver c) as [db|] eqn:Hd;
      [|exists []; split; [symmetry; apply app_nil_r | constructor]].
    destruct (Query _ db _ w) as [[res | err] w'].
    + destruct (getInsertRows res) as [rowCount | err].
      * destruct (rowCount >? int64 c.(maxRow)).
        -- eexists. split; [reflexivity|].
           constructor; [|constructor]. simpl. repeat split. left. reflexivity.
        -- exists []. split; [symmetry; apply app_nil_r | constructor].
      * eexists. split; [reflexivity|].
        constructor; [|constructor]. simpl. repeat split.
        right. split; [reflexivity | discriminate].
    + eexists. split; [reflexivity|].
      constructor; [|constructor]. simpl. repeat split. left. reflexivity.
  - destruct (len lists >? c.(maxRow)).
    + eexists. split; [reflexivity|].
      constructor; [|constructor]. simpl. repeat split. left. reflexivity.
    + exists []. split; [symmetry; apply app_nil_r | constructor].
  - exists []. split; [symmetry; apply app_nil_r | constructor].
Qed.

(** X6.  When the script parses and the rule decodes, the advice list of
    [Check] is either the one Success / Ok advice or a list in which every
    advice has the rule's status as Status, the rule's type as Title, the
    line of one of the script's statements as Line, and the code
    InsertTooManyRows or Internal, the latter only when a handle is
    attached.  The Success advice never stands beside a finding. *)
Theorem X6_findings_carry_rule_and_statement ctx statement w stmtList lvl payload :
  Parse statement ctx.(Charset) ctx.(Collation) = inl stmtList ->
  NewStatusBySQLReviewRuleLevel ctx.(Rule).(RLevel) = inl lvl ->
  UnmarshalNumberTypeRulePayload ctx.(Rule).(RPayload) = inl payload ->
  fst (fst (Check ctx statement w)) = [mkAdvice Success Ok "OK" EmptyString 0] \/
  Forall (fun a =>
            AStatus a = lvl /\ ATitle a = ctx.(Rule).(RType) /\
            (exists stmt, In stmt stmtList /\ ALine a = OriginTextPosition stmt) /\
            (ACode a = InsertTooManyRows \/
             (ACode a = Internal /\ ctx.(Driver) <> None)))
         (fst (fst (Check ctx statement w))).
Proof.
  intros HP HL HU.
  rewrite (Check_decoded _ _ _ _ _ _ HP HL HU). cbv zeta. cbn [fst].
  set (Q := fun a =>
              AStatus a = lvl /\ ATitle a = ctx.(Rule).(RType) /\
              (exists stmt, In stmt stmtList /\ ALine a = OriginTextPosition stmt) /\
              (ACode a = InsertTooManyRows \/
               (ACode a = Internal /\ ctx.(Driver) <> None))).
  set (I := fun c : insertRowLimitChecker =>
              c.(level) = lvl /\ c.(title) = ctx.(Rule).(RType) /\
              c.(driver) = ctx.(Driver) /\ Forall Q c.(adviceList)).
  assert (Hnodes : forall l c w0,
             I c -> (exists stmt, In stmt stmtList /\
                                  c.(line) = OriginTextPosition stmt) ->
             I (fst (enterAll l (c, w0)))).
  { induction l as [|n l IHl]; intros c w0 Hc Hline; [exact Hc|].
    rewrite enterAll_cons.
    destruct (Enter_advice_shape n c w0) as (extra & He & Hshape).
    pose proof (Enter_fields n c w0) as (E1 & E2 & _ & E4 & _ & E6 & _).
    destruct (fst (Enter n (c, w0))) as [c1 w1]. cbn [fst] in *.
    destruct Hc as (C1 & C2 & C3 & C4).
    apply IHl.
    - repeat split; try congruence.
      rewrite He. apply Forall_app. split; [exact C4|].
      eapply Forall_impl; [|exact Hshape].
      intros a (A1 & A2 & A3 & A4). unfold Q.
      split; [congruence|]. split; [congruence|]. split.
      + destruct Hline as (stmt & Hin & Hpos). exists stmt.
        split; [exact Hin | congruence].
      + destruct A4 as [A4 | [A4 A5]]; [left; exact A4 | right].
        split; [exact A4 | congruence].
    - destruct Hline as (stmt & Hin & Hpos). exists stmt.
      split; [exact Hin | congruence]. }
  assert (Hloop : forall rest c w0,
             incl rest stmtList -> I c -> I (fst (visitStatements rest (c, w0)))).
  { induction rest as [|stmt rest IHr]; intros c w0 Hincl Hc; [exact Hc|].
    rewrite visitStatements_cons.
    assert (H0 : I (fst (enterAll (preorder stmt)
                           (setStatement c (Text stmt) (OriginTextPosition stmt), w0)))).
    { apply Hnodes; [exact Hc|].
      exists stmt. split; [apply Hincl; left; reflexivity | reflexivity]. }
    destruct (enterAll (preorder stmt) _) as [c1 w1]. cbn [fst] in H0.
    apply IHr; [|exact H0].
    intros x Hx. apply Hincl. right. exact Hx. }
  assert (H0 : I (newChecker ctx lvl payload)).
  { unfold I, newChecker; simpl. repeat split; constructor. }
  destruct (payload.(Number) >? 0).
  - pose proof (Hloop stmtList _ w (incl_refl _) H0) as (_ & _ & _ & HQ).
    destruct (adviceList (fst (visitStatements stmtList _))) as [|a l];
      [left; reflexivity | right; exact HQ].
  - left. reflexivity.
Qed.

(** X7.  When the script parses and the rule decodes, [Check] returns at
    most one advice for each insert statement of the script, and one advice
    when the script has none. *)
Theorem X7_at_most_one_advice_per_insert ctx statement w stmtList lvl payload :
  Parse statement ctx.(Charset) ctx.(Collation) = inl stmtList ->
  NewStatusBySQLReviewRuleLevel ctx.(Rule).(RLevel) = inl lvl ->
  UnmarshalNumberTypeRulePayload ctx.(Rule).(RPayload) = inl payload ->
  (List.length (fst (fst (Check ctx statement w))) <=
   Nat.max 1 (List.length (filter isInsertStmt (flat_map preorder stmtList))))%nat.
Proof.
  intros HP HL HU.
  rewrite (Check_decoded _ _ _ _ _ _ HP HL HU). cbv zeta. cbn [fst].
  assert (Hloop : forall rest c w0,
             exists extra,
               (fst (visitStatements rest (c, w0))).(adviceList) =
                 (c.(adviceList) ++ extra)%list /\
               (List.length extra <=
                List.length (filter isInsertStmt (flat_map preorder rest)))%nat).
  { induction rest as [|stmt rest IHr]; intros c w0.
    - exists []. split; [symmetry; apply app_nil_r | simpl; lia].
    - rewrite visitStatements_cons.
      destruct (enterAll_appends (preorder stmt)
                  (setStatement c (Text stmt) (OriginTextPosition stmt)) w0)
        as (e1 & He1 & Hl1).
      destruct (enterAll (preorder stmt) _) as [c1 w1]. cbn [fst] in He1.
      destruct (IHr c1 w1) as (e2 & He2 & Hl2).
      exists (e1 ++ e2)%list. split.
      + rewrite He2, He1. simpl. rewrite app_assoc. reflexivity.
      + simpl flat_map. rewrite filter_app, !length_app. lia. }
  destruct (payload.(Number) >? 0).
  - destruct (Hloop stmtList (newChecker ctx lvl payload) w) as (extra & He & Hl).
    rewrite He. cbn [newChecker adviceList app].
    destruct extra as [|a l]; cbn [List.length] in *; lia.
  - cbn [fst newChecker adviceList List.length]. lia.
Qed.

End Accumulation.

(** ** Raising the threshold *)

Section Thresholds.
Context `{Collaborators}.

Lemma int64_id z : in_int64 z -> int64 z = z.
Proof.
  unfold in_int64, min_int64, max_int64, int64. intro Hz.
  rewrite Z.mod_small; lia.
Qed.

(** Two checkers that differ in their threshold and in the advice they
    hold: the one with the higher threshold holds no more advice. *)
Lemma Enter_threshold n c1 c2 w :
  c1.(driver) = c2.(driver) -> c1.(ctx) = c2.(ctx) ->
  c1.(maxRow) <= c2.(maxRow) -> in_int64 c1.(maxRow) -> in_int64 c2.(maxRow) ->
  (List.length c2.(adviceList) <= List.length c1.(adviceList))%nat ->
  (List.length (fst (fst (Enter n (c2, w)))).(adviceList) <=
   List.length (fst (fst (Enter n (c1, w)))).(adviceList))%nat /\
  snd (fst (Enter n (c2, w))) = snd (fst (Enter n (c1, w))).
Proof.
  intros Hd Hg Hm H1 H2 Hlen.
  destruct n as [tx ps [s|] tbl cols lists setl dup | tx ps ch]; simpl.
  - rewrite <- Hd, <- Hg.
    destruct (driver c1) as [db|]; [|split; [exact Hlen | reflexivity]].
    destruct (Query _ db _ w) as [[res | err] w'].
    + destruct (getInsertRows res) as [rowCount | err].
      * rewrite (int64_id _ H1), (int64_id _ H2).
        destruct (Z.gtb_spec rowCount c1.(maxRow));
          destruct (Z.gtb_spec rowCount c2.(maxRow)); simpl;
          rewrite ?length_app; simpl; split; try reflexivity; lia.
      * simpl. rewrite !length_app. simpl. split; [lia | reflexivity].
    + simpl. rewrite !length_app. simpl. split; [lia | reflexivity].
  - destruct (Z.gtb_spec (len lists) c1.(maxRow));
      destruct (Z.gtb_spec (len lists) c2.(maxRow)); simpl;
      rewrite ?length_app; simpl; split; try reflexivity; lia.
  - split; [exact Hlen | reflexivity].
Qed.

Lemma enterAll_threshold l :
  forall c1 c2 w,
    c1.(driver) = c2.(driver) -> c1.(ctx) = c2.(ctx) ->
    c1.(maxRow) <= c2.(maxRow) -> in_int64 c1.(maxRow) -> in_int64 c2.(maxRow) ->
    (List.length c2.(adviceList) <= List.length c1.(adviceList))%nat ->
    (List.length (fst (enterAll l (c2, w))).(adviceList) <=
     List.length (fst (enterAll l (c1, w))).(adviceList))%nat /\
    snd (enterAll l (c2, w)) = snd (enterAll l (c1, w)).
Proof.
  induction l as [|n l IH]; intros c1 c2 w Hd Hg Hm H1 H2 Hlen.
  - split; [exact Hlen | reflexivity].
  - rewrite !enterAll_cons.
    destruct (Enter_threshold n c1 c2 w Hd Hg Hm H1 H2 Hlen) as [Hl Hw].
    pose proof (Enter_fields n c1 w) as (_ & _ & _ & _ & A5 & A6 & A7).
    pose proof (Enter_fields n c2 w) as (_ & _ & _ & _ & B5 & B6 & B7).
    destruct (fst (Enter n (c1, w))) as [c1' w1].
    destruct (fst (Enter n (c2, w))) as [c2' w2].
    cbn [fst snd] in *. subst w2.
    apply IH; try congruence.
Qed.

Lemma visitStatements_threshold stmtList :
  forall c1 c2 w,
    c1.(driver) = c2.(driver) -> c1.(ctx) = c2.(ctx) ->
    c1.(maxRow) <= c2.(maxRow) -> in_int64 c1.(maxRow) -> in_int64 c2.(maxRow) ->
    (List.length c2.(adviceList) <= List.length c1.(adviceList))%nat ->
    (List.length (fst (visitStatements stmtList (c2, w))).(adviceList) <=
     List.length (fst (visitStatements stmtList (c1, w))).(adviceList))%nat /\
    snd (visitStatements stmtList (c2, w)) = snd (visitStatements stmtList (c1, w)).
Proof.
  induction stmtList as [|stmt rest IH]; intros c1 c2 w Hd Hg Hm H1 H2 Hlen.
  - split; [exact Hlen | reflexivity].
  - rewrite !visitStatements_cons.
    set (t := Text stmt). set (p := OriginTextPosition stmt).
    destruct (enterAll_threshold (preorder stmt)
                (setStatement c1 t p) (setStatement c2 t p) w
                Hd Hg Hm H1 H2 Hlen) as [Hl Hw].
    pose proof (enterAll_fields (preorder stmt) (setStatement c1 t p) w)
      as (_ & _ & _ & _ & A5 & A6 & A7).
    pose proof (enterAll_fields (preorder stmt) (setStatement c2 t p) w)
      as (_ & _ & _ & _ & B5 & B6 & B7).
    cbv zeta in A5, A6, A7, B5, B6, B7.
    destruct (enterAll (preorder stmt) (setStatement c1 t p, w)) as [c1' w1].
    destruct (enterAll (preorder stmt) (setStatement c2 t p, w)) as [c2' w2].
    cbn [fst snd setStatement maxRow driver mysql.ctx] in *. subst w2.
    apply IH; try congruence.
Qed.

(** X8.  Take two runs of [Check] on the same script, handle, context and
    database, under rules whose thresholds are positive, fit a signed
    64-bit integer, and the second is at least the first.  The run with the
    higher threshold returns no more advice than the other, and both leave
    the database in the same state. *)
Theorem X8_higher_threshold_no_more_advice
    ctx1 ctx2 statement w stmtList lvl1 lvl2 payload1 payload2 :
  ctx1.(Charset) = ctx2.(Charset) ->
  ctx1.(Collation) = ctx2.(Collation) ->
  ctx1.(Driver) = ctx2.(Driver) ->
  ctx1.(Ctx) = ctx2.(Ctx) ->
  Parse statement ctx1.(Charset) ctx1.(Collation) = inl stmtList ->
  NewStatusBySQLReviewRuleLevel ctx1.(Rule).(RLevel) = inl lvl1 ->
  NewStatusBySQLReviewRuleLevel ctx2.(Rule).(RLevel) = inl lvl2 ->
  UnmarshalNumberTypeRulePayload ctx1.(Rule).(RPayload) = inl payload1 ->
  UnmarshalNumberTypeRulePayload ctx2.(Rule).(RPayload) = inl payload2 ->
  0 < payload1.(Number) <= payload2.(Number) ->
  in_int64 payload1.(Number) -> in_int64 payload2.(Number) ->
  (List.length (fst (fst (Check ctx2 statement w))) <=
   List.length (fst (fst (Check ctx1 statement w))))%nat /\
  snd (Check ctx2 statement w) = snd (Check ctx1 statement w).
Proof.
  intros Hcs Hco Hd Hg HP HL1 HL2 HU1 HU2 Hn H1 H2.
  assert (HP2 : Parse statement ctx2.(Charset) ctx2.(Collation) = inl stmtList)
    by (rewrite <- Hcs, <- Hco; exact HP).
  rewrite (Check_decoded _ _ _ _ _ _ HP HL1 HU1).
  rewrite (Check_decoded _ _ _ _ _ _ HP2 HL2 HU2). cbv zeta.
  assert (E1 : (payload1.(Number) >? 0) = true)
    by (rewrite Z.gtb_ltb, Z.ltb_lt; lia).
  assert (E2 : (payload2.(Number) >? 0) = true)
    by (rewrite Z.gtb_ltb, Z.ltb_lt; lia).
  rewrite E1, E2. cbn [fst snd].
  destruct (visitStatements_threshold stmtList
              (newChecker ctx1 lvl1 payload1) (newChecker ctx2 lvl2 payload2) w
              Hd Hg (proj2 Hn) H1 H2 (Nat.le_refl _)) as [Hl Hw].
  split; [|exact Hw].
  destruct (adviceList (fst (visitStatements stmtList
                               (newChecker ctx1 lvl1 payload1, w)))) as [|a1 l1];
    destruct (adviceList (fst (visitStatements stmtList
                                 (newChecker ctx2 lvl2 payload2, w)))) as [|a2 l2];
    simpl in *; lia.
Qed.

End Thresholds.

(** ** The queries a run sends *)

Section QueryLog.
Variable C : Collaborators.

Lemma Enter_logged n (c : @insertRowLimitChecker (logged C))
    (wl : @World (logged C)) db :
  c.(driver) = Some db ->
  snd (snd (fst (@Enter (logged C) n (c, wl)))) =
  (snd wl ++ (if isSelectInsert n then [explainQuery n] else []))%list.
Proof.
  intro Hd. destruct wl as [w lg].
  destruct n as [tx ps [s|] tbl cols lists setl dup | tx ps ch]; simpl.
  - rewrite Hd. unfold explainQuery. simpl.
    destruct (@Query C _ db _ w) as [[res | err] w']; [|reflexivity].
    destruct (getInsertRows res) as [rowCount | err]; [|reflexivity].
    destruct (rowCount >? int64 c.(maxRow)); reflexivity.
  - destruct (len lists >? c.(maxRow)); simpl; rewrite app_nil_r; reflexivity.
  - rewrite app_nil_r. reflexivity.
Qed.

Lemma enterAll_logged l :
  forall (c : @insertRowLimitChecker (logged C)) (wl : @World (logged C)) db,
    c.(driver) = Some db ->
    snd (snd (@enterAll (logged C) l (c, wl))) =
    (snd wl ++ map explainQuery (filter isSelectInsert l))%list.
Proof.
  induction l as [|n l IH]; intros c wl db Hd.
  - simpl. rewrite app_nil_r. reflexivity.
  - rewrite enterAll_cons.
    pose proof (Enter_logged n c wl db Hd) as Hlog.
    pose proof (@Enter_fields (logged C) n c wl)
      as (_ & _ & _ & _ & _ & Hd' & _).
    destruct (fst (@Enter (logged C) n (c, wl))) as [c1 wl1].
    cbn [fst snd] in *.
    rewrite (IH c1 wl1 db ltac:(congruence)). rewrite Hlog.
    simpl filter. destruct (isSelectInsert n); simpl.
    + rewrite <- app_assoc. reflexivity.
    + rewrite app_nil_r. reflexivity.
Qed.

Lemma visitStatements_logged stmtList :
  forall (c : @insertRowLimitChecker (logged C)) (wl : @World (logged C)) db,
    c.(driver) = Some db ->
    snd (snd (@visitStatements (logged C) stmtList (c, wl))) =
    (snd wl ++ map explainQuery
                 (filter isSelectInsert (flat_map preorder stmtList)))%list.
Proof.
  induction stmtList as [|stmt rest IH]; intros c wl db Hd.
  - simpl. rewrite app_nil_r. reflexivity.
  - rewrite visitStatements_cons.
    set (c0 := setStatement c (Text stmt) (OriginTextPosition stmt)).
    pose proof (enterAll_logged (preorder stmt) c0 wl db Hd) as Hlog.
    pose proof (@enterAll_fields (logged C) (preorder stmt) c0 wl)
      as (_ & _ & _ & _ & _ & Hd' & _). cbv zeta in Hd'.
    destruct (@enterAll (logged C) (preorder stmt) (c0, wl)) as [c1 wl1].
    cbn [fst snd] in *.
    rewrite (IH c1 wl1 db ltac:(unfold c0 in Hd'; simpl in Hd'; congruence)).
    rewrite Hlog. simpl flat_map. rewrite filter_app, map_app, app_assoc.
    reflexivity.
Qed.

(** X9.  On a database that records the queries it receives, a run of
    [Check] with a handle and a positive threshold adds to the record, in
    the order of the script, exactly one query per insert from a select:
    the word EXPLAIN, a space and the text of that insert.  No other query
    is sent. *)
Theorem X9_one_explain_per_insert_select
    (ctx : @Context (logged C)) statement w lg stmtList lvl payload db :
  @Parse (logged C) statement ctx.(Charset) ctx.(Collation) = inl stmtList ->
  @NewStatusBySQLReviewRuleLevel (logged C) ctx.(Rule).(RLevel) = inl lvl ->
  @UnmarshalNumberTypeRulePayload (logged C) ctx.(Rule).(RPayload) = inl payload ->
  payload.(Number) > 0 ->
  ctx.(Driver) = Some db ->
  snd (snd (@Check (logged C) ctx statement (w, lg))) =
  (lg ++ map (fun n => ("EXPLAIN " ++ Text n)%string)
           (filter isSelectInsert (flat_map preorder stmtList)))%list.
Proof.
  intros HP HL HU Hn Hd.
  rewrite (@Check_decoded (logged C) _ _ _ _ _ _ HP HL HU). cbv zeta.
  assert (E : (payload.(Number) >? 0) = true)
    by (rewrite Z.gtb_ltb, Z.ltb_lt; lia).
  rewrite E. cbn [snd].
  apply (visitStatements_logged stmtList _ (w, lg) db). exact Hd.
Qed.

End QueryLog.

(** ** The three representations of a row count *)

Section Representations.
Context `{Collaborators}.

(** Evaluate [digit_of] on the digit at the head of the string. *)
Ltac eval_digit :=
  cbn [NilEmpty.string_of_uint parse_digits Pos.of_uint_acc Pos.of_uint];
  try match goal with
      | |- context [digit_of ?c] =>
          let v := eval vm_compute in (digit_of c) in
          change (digit_of c) with v; cbv iota beta
      end.

Lemma parse_digits_acc d acc :
  parse_digits (NilEmpty.string_of_uint d) (Z.pos acc) =
  Some (Z.pos (Pos.of_uint_acc d acc)).
Proof.
  revert acc. induction d; intro acc; eval_digit; try reflexivity;
    match goal with
    | |- parse_digits _ ?z = Some (Z.pos (Pos.of_uint_acc _ ?q)) =>
        replace z with (Z.pos q) by lia; apply IHd
    end.
Qed.

Lemma parse_digits_uint d :
  parse_digits (NilEmpty.string_of_uint d) 0 = Some (Z.of_N (Pos.of_uint d)).
Proof.
  induction d; eval_digit; try reflexivity; try exact IHd;
    cbn [Z.of_N];
    match goal with
    | |- parse_digits _ ?z = Some (Z.pos (Pos.of_uint_acc _ ?q)) =>
        change z with (Z.pos q); apply parse_digits_acc
    end.
Qed.

Lemma string_of_uint_nonnil d :
  d <> Decimal.Nil -> NilZero.string_of_uint d = NilEmpty.string_of_uint d.
Proof. destruct d; [intro Hd; exfalso; apply Hd; reflexivity | ..]; reflexivity. Qed.

Lemma parse_unsigned_to_uint p :
  parse_unsigned (NilEmpty.string_of_uint (Pos.to_uint p)) = Some (Z.pos p).
Proof.
  unfold parse_unsigned.
  pose proof (parse_digits_uint (Pos.to_uint p)) as Hp.
  rewrite DecimalPos.Unsigned.of_to in Hp. cbn [Z.of_N] in Hp.
  pose proof (DecimalPos.Unsigned.to_uint_nonnil p) as Hnil.
  destruct (Pos.to_uint p); [exfalso; apply Hnil; reflexivity | ..]; exact Hp.
Qed.

(** [strconv.ParseInt] reads back what [%d] prints. *)
Lemma ParseInt_fmt_d z : in_int64 z -> ParseInt (fmt_d z) = Some z.
Proof.
  intro Hz. unfold fmt_d.
  assert (Hb : in_int64b z = true).
  { unfold in_int64b. destruct Hz as [Hlo Hhi].
    apply andb_true_iff. split; apply Z.leb_le; assumption. }
  destruct z as [|p|p].
  - reflexivity.
  - cbn [Z.to_int NilZero.string_of_int].
    pose proof (DecimalPos.Unsigned.to_uint_nonnil p) as Hnil.
    rewrite (string_of_uint_nonnil _ Hnil).
    pose proof (parse_unsigned_to_uint p) as Hp.
    unfold ParseInt.
    destruct (Pos.to_uint p) eqn:Hu; [exfalso; apply Hnil; reflexivity | ..];
      cbn [NilEmpty.string_of_uint] in *; cbv zeta;
      match goal with
      | |- context [Ascii.eqb ?c "-"] =>
          change (Ascii.eqb c "-") with false;
          change (Ascii.eqb c "+") with false
      end; cbn [orb]; cbv iota; rewrite Hp, Hb; reflexivity.
  - cbn [Z.to_int NilZero.string_of_int].
    pose proof (DecimalPos.Unsigned.to_uint_nonnil p) as Hnil.
    rewrite (string_of_uint_nonnil _ Hnil).
    unfold ParseInt.
    change (Ascii.eqb "-" "-") with true.
    change (Ascii.eqb "-" "+") with false.
    cbn [orb]. cbv zeta iota.
    rewrite parse_unsigned_to_uint. change (- Z.pos p) with (Z.neg p).
    rewrite Hb. reflexivity.
Qed.

(** X10.  For a row count that fits a signed 64-bit integer the decoder
    returns the same count whichever of the three representations column 9
    of the second row carries: the [int], the [int64], or the decimal text
    as [%d] prints it (with its minus sign when negative).  The first two
    elements of the result, the first row, the rows after the second and
    the other eleven columns play no part. *)
Theorem X10_row_count_in_any_representation a b r0 rowTwo rest z :
  in_int64 z ->
  List.length rowTwo = 12%nat ->
  nth 9 rowTwo VNil = VInt z \/
  nth 9 rowTwo VNil = VInt64 z \/
  nth 9 rowTwo VNil = VString (fmt_d z) ->
  getInsertRows [a; b; VSlice (r0 :: VSlice rowTwo :: rest)] = inl z.
Proof.
  intros Hz Hlen Hcol. unfold getInsertRows. cbn [nth].
  unfold len at 1 2. cbn [List.length].
  change (negb (Z.of_nat 3 =? 3)) with false. cbv iota.
  assert (E2 : (len (r0 :: VSlice rowTwo :: rest) <? 2) = false)
    by (apply Z.ltb_ge; unfold len; cbn [List.length]; lia).
  rewrite E2. unfold len. rewrite Hlen.
  change (negb (Z.of_nat 12 =? 12)) with false. cbv iota.
  destruct Hcol as [-> | [-> | ->]].
  - rewrite (int64_id z Hz). reflexivity.
  - reflexivity.
  - rewrite (ParseInt_fmt_d z Hz). reflexivity.
Qed.

End Representations.

(** ** Static findings in the presence of a handle *)

Section StaticUnderHandle.
Context `{Collaborators}.

Lemma staticFinding_select lvl ttl m stmt n :
  isSelectInsert n = true -> staticFinding lvl ttl m stmt n = [].
Proof.
  destruct n as [tx ps [s|] tbl cols lists setl dup | tx ps ch];
    [reflexivity | discriminate | discriminate].
Qed.

(** Whatever the handle and the database, [Enter] appends the static
    finding of the node, if there is one. *)
Lemma Enter_keeps_static n c w stmt a :
  c.(text) = Text stmt -> c.(line) = OriginTextPosition stmt ->
  In a (c.(adviceList) ++ staticFinding c.(level) c.(title) c.(maxRow) stmt n)%list ->
  In a (fst (fst (Enter n (c, w)))).(adviceList).
Proof.
  intros Ht Hl Hin. destruct (isSelectInsert n) eqn:Hs.
  - rewrite (staticFinding_select _ _ _ _ _ Hs), app_nil_r in Hin.
    destruct (Enter_appends n c w) as (extra & He & _).
    rewrite He. apply in_or_app. left. exact Hin.
  - destruct (Enter_static n c w stmt (or_intror Hs) Ht Hl) as [Ha _].
    rewrite Ha. exact Hin.
Qed.

Lemma enterAll_keeps_static l stmt a :
  forall c w,
    c.(text) = Text stmt -> c.(line) = OriginTextPosition stmt ->
    In a (c.(adviceList)
          ++ flat_map (staticFinding c.(level) c.(title) c.(maxRow) stmt) l)%list ->
    In a (fst (enterAll l (c, w))).(adviceList).
Proof.
  induction l as [|n l IH]; intros c w Ht Hl Hin.
  - simpl in Hin. rewrite app_nil_r in Hin. exact Hin.
  - rewrite enterAll_cons.
    pose proof (Enter_keeps_static n c w stmt a Ht Hl) as Hn.
    pose proof (Enter_fields n c w) as (E1 & E2 & E3 & E4 & E5 & _ & _).
    destruct (fst (Enter n (c, w))) as [c1 w1]. cbn [fst] in *.
    apply IH; [congruence | congruence |].
    rewrite E1, E2, E5.
    simpl flat_map in Hin. rewrite app_assoc in Hin.
    apply in_app_or in Hin. apply in_or_app.
    destruct Hin as [Hin | Hin]; [left; apply Hn; exact Hin | right; exact Hin].
Qed.

Lemma visitStatements_keeps_static stmtList a :
  forall c w,
    In a (c.(adviceList)
          ++ staticFindings c.(level) c.(title) c.(maxRow) stmtList)%list ->
    In a (fst (visitStatements stmtList (c, w))).(adviceList).
Proof.
  induction stmtList as [|stmt rest IH]; intros c w Hin.
  - simpl in Hin. rewrite app_nil_r in Hin. exact Hin.
  - rewrite visitStatements_cons.
    set (c0 := setStatement c (Text stmt) (OriginTextPosition stmt)).
    pose proof (enterAll_keeps_static (preorder stmt) stmt a c0 w eq_refl eq_refl)
      as Hn.
    pose proof (enterAll_fields (preorder stmt) c0 w)
      as (E1 & E2 & _ & _ & E5 & _ & _). cbv zeta in E1, E2, E5.
    destruct (enterAll (preorder stmt) (c0, w)) as [c1 w1]. cbn [fst] in *.
    apply IH. rewrite E1, E2, E5.
    unfold staticFindings in Hin. simpl flat_map in Hin.
    rewrite app_assoc in Hin.
    apply in_app_or in Hin. apply in_or_app.
    destruct Hin as [Hin | Hin]; [left; apply Hn; exact Hin | right; exact Hin].
Qed.

(** X11.  With a positive threshold, every insert with more value lists
    than the threshold is reported by [Check] whether or not a handle is
    attached and whatever the database answers to the queries for the
    other statements: the advice the static branch yields for it is in the
    returned list. *)
Theorem X11_static_findings_survive_handle
    ctx statement w stmtList lvl payload a :
  Parse statement ctx.(Charset) ctx.(Collation) = inl stmtList ->
  NewStatusBySQLReviewRuleLevel ctx.(Rule).(RLevel) = inl lvl ->
  UnmarshalNumberTypeRulePayload ctx.(Rule).(RPayload) = inl payload ->
  payload.(Number) > 0 ->
  In a (staticFindings lvl ctx.(Rule).(RType) payload.(Number) stmtList) ->
  In a (fst (fst (Check ctx statement w))).
Proof.
  intros HP HL HU Hn Hin.
  rewrite (Check_decoded _ _ _ _ _ _ HP HL HU). cbv zeta.
  assert (E : (payload.(Number) >? 0) = true)
    by (rewrite Z.gtb_ltb, Z.ltb_lt; lia).
  rewrite E. cbn [fst].
  pose proof (visitStatements_keeps_static stmtList a
                (newChecker ctx lvl payload) w Hin) as Hk.
  destruct (adviceList (fst (visitStatements stmtList
                               (newChecker ctx lvl payload, w)))) as [|a0 l];
    [destruct Hk | exact Hk].
Qed.

End StaticUnderHandle.

(** ** The theorems on the concrete collaborators

    Each theorem above that has hypotheses is applied once to the
    database, parser and decoders of [Demo]. *)

#[local] Existing Instance Demo.demo.

Lemma C1_witness :
  fst (Check (Demo.demoContext "2" None) "SELECT 1" []) = ([okAdvice], None) /\
  (1 <= List.length [okAdvice])%nat.
Proof.
  split; [reflexivity|].
  exact (proj1 (@C1_advice_list_never_empty Demo.demo (Demo.demoContext "2" None)
                  "SELECT 1" [] [okAdvice] eq_refl)).
Defined.

Lemma C2_witness :
  Check (Demo.demoContext "not a number" None) "DROP IT" [] =
  (([mkAdvice Error StatementSyntaxError "Syntax error"
       "syntax error near DROP IT" 1], None), []).
Proof.
  exact (proj1 (@C2_syntax_error_aborts_script Demo.demo
                  (Demo.demoContext "not a number" None) "DROP IT" []
                  "syntax error near DROP IT" 1 eq_refl)).
Defined.

Lemma C3_witness :
  snd (fst (Check Demo.refusedContext Demo.insertSelectSQL [])) = None /\
  In (mkAdvice Warn InsertTooManyRows "statement.insert.row-limit"
        (dryRunFailedContent Demo.insertSelectSQL (Errorf "connection refused")) 1)
     (fst (fst (Check Demo.refusedContext Demo.insertSelectSQL []))).
Proof.
  pose proof (@C3_dynamic_failures_become_advice Demo.demo
                Demo.refusedContext Demo.insertSelectSQL [] [] []
                Demo.insertSelectSQL 1 Demo.selectOther Demo.tableRef [] [] [] []
                (inr (Errorf "connection refused")) Warn (mkNumberPayload 2)
                (inr (Errorf "connection refused"))
                ["EXPLAIN INSERT INTO t SELECT * FROM other"]
                eq_refl eq_refl eq_refl eq_refl eq_refl eq_refl)
    as (Hnone & Hfail & _).
  split; [exact Hnone | exact (Hfail _ eq_refl)].
Defined.

Lemma C4_witness :
  Check (Demo.demoContext "2" None) "INSERT INTO t(id) VALUES (1),(2),(3)" [] =
  (([mkAdvice Warn InsertTooManyRows "statement.insert.row-limit"
       (dquote ++ "INSERT INTO t(id) VALUES (1),(2),(3)" ++ dquote
        ++ " inserts 3 rows. The count exceeds 2.") 1], None), []).
Proof.
  exact (@C4_three_rows_over_threshold_two Demo.demo (Demo.demoContext "2" None) []
           Demo.tableRef [Demo.leaf] [Demo.leaf] [Demo.leaf] [Demo.leaf] [] []
           eq_refl eq_refl eq_refl eq_refl).
Defined.

Lemma C5_witness :
  Enter Demo.insertSelect (Demo.checkerTwo, []) = ((Demo.checkerTwo, []), false) /\
  Accept checkerVisitor Demo.insertSelect (Demo.checkerTwo, []) =
    ((Demo.checkerTwo, []), true) /\
  Check (Demo.demoContext "2" None) "INSERT INTO t SELECT * FROM other" [] =
    (([mkAdvice Success Ok "OK" EmptyString 0], None), []).
Proof.
  pose proof (@C5_insert_select_without_handle Demo.demo Demo.insertSelect
                eq_refl eq_refl) as (Henter & Hacc & Hcheck).
  split; [|split].
  - exact (Henter Demo.checkerTwo [] eq_refl).
  - exact (Hacc Demo.checkerTwo [] eq_refl eq_refl).
  - exact (Hcheck (Demo.demoContext "2" None) "INSERT INTO t SELECT * FROM other"
             [] Warn (mkNumberPayload 2) eq_refl eq_refl eq_refl eq_refl eq_refl).
Defined.

Lemma C7_witness :
  exists e, Check (Demo.demoContext "two" None) "SELECT 1" [] = (([], Some e), []).
Proof.
  destruct (@C7_malformed_payload_is_error Demo.demo (Demo.demoContext "two" None)
              "SELECT 1" [] [OtherNode "SELECT 1" 1 [Demo.leaf]]
              (Errorf "invalid number payload") eq_refl eq_refl) as (e & He & _).
  exists e. exact He.
Defined.

Lemma C8_witness :
  getInsertRows (Demo.explainAnswer (VString "7")) = inl 7 /\
  in_int64 7.
Proof.
  pose proof (@C8_getInsertRows_positional Demo.demo
                (Demo.explainAnswer (VString "7")) 7) as (Hiff & _ & Hrange).
  assert (Hrows : getInsertRows (Demo.explainAnswer (VString "7")) = inl 7).
  { apply (proj2 Hiff).
    exists (VSlice []), (VSlice []).
    eexists. eexists. exists [].
    split; [reflexivity|]. split; [reflexivity|].
    right; right. exists "7". split; reflexivity. }
  split; [exact Hrows|].
  apply (Hrange Hrows).
  repeat constructor; simpl; unfold in_int64, min_int64, max_int64; lia.
Defined.

Lemma C9_witness :
  fst (Check (Demo.demoContext "2" None) Demo.insertValuesSQL []) =
  fst (Check (mkContext "utf8mb4" "utf8mb4_general_ci" (Demo.warnRule "2") None true)
             Demo.insertValuesSQL ["EXPLAIN SELECT 1"]).
Proof.
  exact (proj1 (@C9_deterministic_without_handle Demo.demo
                  (Demo.demoContext "2" None)
                  (mkContext "utf8mb4" "utf8mb4_general_ci" (Demo.warnRule "2")
                             None true)
                  Demo.insertValuesSQL [] ["EXPLAIN SELECT 1"]
                  eq_refl eq_refl eq_refl eq_refl eq_refl)).
Defined.

Lemma C10_witness :
  Check (Demo.demoContext "0" (Some (inr (Errorf "connection refused"))))
        Demo.insertValuesSQL [] =
  (([mkAdvice Success Ok "OK" EmptyString 0], None), []).
Proof.
  apply (@C10_nonpositive_threshold_disables Demo.demo
           (Demo.demoContext "0" (Some (inr (Errorf "connection refused"))))
           Demo.insertValuesSQL [] [Demo.insertValues] Warn (mkNumberPayload 0)
           eq_refl eq_refl eq_refl).
  simpl. lia.
Defined.

(** ** Where the code departs from the specification *)

(** C3 as the specification words it fails: under a cancelled context the query fails and the
    advice carries the code InsertTooManyRows at the rule's status Warning,
    and no advice of the list has status Error and code Internal; and an
    undecodable result gives an Internal advice at status Warning, not
    Error. *)
Lemma C3_counterexample :
  Query true (inl (Demo.explainAnswer (VInt64 7)))
        ("EXPLAIN " ++ Demo.insertSelectSQL) [] =
    (inr (Errorf "context canceled"), []) /\
  Check Demo.cancelledContext Demo.insertSelectSQL [] =
    (([mkAdvice Warn InsertTooManyRows "statement.insert.row-limit"
         (dquote ++ "INSERT INTO t SELECT * FROM other" ++ dquote
          ++ " dry runs failed: context canceled") 1], None), []) /\
  ~ (exists a, In a (fst (fst (Check Demo.cancelledContext Demo.insertSelectSQL [])))
               /\ AStatus a = Error /\ ACode a = Internal) /\
  fst (Check Demo.undecodableContext Demo.insertSelectSQL []) =
    ([mkAdvice Warn Internal "statement.insert.row-limit"
        ("failed to get row count for " ++ dquote
         ++ "INSERT INTO t SELECT * FROM other" ++ dquote
         ++ ": expected 3 but got 1") 1], None).
Proof.
  split; [reflexivity|]. split; [reflexivity|]. split; [|reflexivity].
  intros (a & Hin & Hs & Hc). simpl in Hin.
  destruct Hin as [<- | []]. discriminate Hc.
Qed.

(** C6 as the specification words it fails: on the insert of three value lists [Enter] records
    its finding and answers false, that is, descend; and on a tree with an
    insert below an insert the traversal records two findings. *)
Lemma C6_counterexample :
  isInsertStmt Demo.insertValues = true /\
  List.length (fst (fst (Enter Demo.insertValues (Demo.checkerTwo, [])))).(adviceList)
    = 1%nat /\
  snd (Enter Demo.insertValues (Demo.checkerTwo, [])) = false /\
  List.length
    (fst (fst (Accept checkerVisitor Demo.nestedInsert
                 (Demo.checkerTwo, [])))).(adviceList) = 2%nat.
Proof. repeat split; reflexivity. Qed.

(** C7 as the specification words it fails: with a script that does not parse, a payload that
    cannot be decoded gives no error; [Check] returns the syntax advice. *)
Lemma C7_counterexample :
  UnmarshalNumberTypeRulePayload (RPayload (Rule (Demo.demoContext "two" None))) =
    inr (Errorf "invalid number payload") /\
  Check (Demo.demoContext "two" None) "DROP IT" [] =
    (([mkAdvice Error StatementSyntaxError "Syntax error"
         "syntax error near DROP IT" 1], None), []).
Proof. split; reflexivity. Qed.

(** ** The further properties on the concrete collaborators *)

Lemma X1_witness :
  Check (Demo.demoContext "two" None) "SELECT 1" [] =
  (([], Some (Errorf "invalid number payload")), []).
Proof.
  exact (proj2 (@X1_check_error_exactly Demo.demo (Demo.demoContext "two" None)
                  "SELECT 1" [] (Errorf "invalid number payload")) eq_refl).
Defined.

Lemma X2_witness :
  Check (Demo.demoContext "3" (Some (inr (Errorf "connection refused"))))
        Demo.insertValuesSQL [] =
  (([mkAdvice Success Ok "OK" EmptyString 0], None), []).
Proof.
  apply (@X2_values_insert_strictly_over_threshold Demo.demo
           (Demo.demoContext "3" (Some (inr (Errorf "connection refused"))))
           Demo.insertValuesSQL [] Demo.insertValuesSQL 1 Demo.tableRef
           [Demo.leaf] [[Demo.leaf]; [Demo.leaf]; [Demo.leaf]] [] []
           Warn (mkNumberPayload 3) eq_refl eq_refl eq_refl eq_refl).
  simpl. lia.
Defined.

Lemma X3_witness :
  Check (Demo.demoContext "2" (Some (inl (Demo.explainAnswer (VString "7")))))
        Demo.insertSelectSQL [] =
  (([mkAdvice Warn InsertTooManyRows "statement.insert.row-limit"
       (tooManyRowsContent Demo.insertSelectSQL 7 2) 1], None),
   ["EXPLAIN INSERT INTO t SELECT * FROM other"]).
Proof.
  apply (@X3_insert_select_estimate_over_threshold Demo.demo
           (Demo.demoContext "2" (Some (inl (Demo.explainAnswer (VString "7")))))
           Demo.insertSelectSQL [] Demo.insertSelectSQL 1 Demo.selectOther
           Demo.tableRef [] [] [] []
           (inl (Demo.explainAnswer (VString "7"))) Warn (mkNumberPayload 2)
           (Demo.explainAnswer (VString "7"))
           ["EXPLAIN INSERT INTO t SELECT * FROM other"] 7
           eq_refl eq_refl eq_refl eq_refl);
    [simpl; lia | reflexivity | reflexivity | reflexivity].
Defined.

Lemma X4_witness :
  Check (Demo.demoContext "2" None) Demo.insertValuesSQL [] =
  (([mkAdvice Warn InsertTooManyRows "statement.insert.row-limit"
       (tooManyRowsContent Demo.insertValuesSQL 3 2) 1], None), []).
Proof.
  apply (@X4_static_advice_in_script_order Demo.demo (Demo.demoContext "2" None)
           Demo.insertValuesSQL [] [Demo.insertValues] Warn (mkNumberPayload 2)
           eq_refl eq_refl eq_refl).
  - simpl. lia.
  - left. reflexivity.
Defined.

Lemma X6_witness :
  fst (fst (Check Demo.undecodableContext Demo.insertSelectSQL [])) =
    [mkAdvice Success Ok "OK" EmptyString 0] \/
  Forall (fun a =>
            AStatus a = Warn /\ ATitle a = "statement.insert.row-limit" /\
            (exists stmt, In stmt [Demo.insertSelect] /\
                          ALine a = OriginTextPosition stmt) /\
            (ACode a = InsertTooManyRows \/
             (ACode a = Internal /\
              Driver Demo.undecodableContext <> None)))
         (fst (fst (Check Demo.undecodableContext Demo.insertSelectSQL []))).
Proof.
  exact (@X6_findings_carry_rule_and_statement Demo.demo Demo.undecodableContext
           Demo.insertSelectSQL [] [Demo.insertSelect] Warn (mkNumberPayload 2)
           eq_refl eq_refl eq_refl).
Defined.

Lemma X7_witness :
  (List.length (fst (fst (Check (Demo.demoContext "2" None)
                            Demo.insertValuesSQL []))) <= 1)%nat.
Proof.
  exact (@X7_at_most_one_advice_per_insert Demo.demo (Demo.demoContext "2" None)
           Demo.insertValuesSQL [] [Demo.insertValues] Warn (mkNumberPayload 2)
           eq_refl eq_refl eq_refl).
Defined.

Lemma X8_witness :
  (List.length (fst (fst (Check (Demo.demoContext "3" None)
                            Demo.insertValuesSQL []))) <=
   List.length (fst (fst (Check (Demo.demoContext "2" None)
                            Demo.insertValuesSQL []))))%nat /\
  snd (Check (Demo.demoContext "3" None) Demo.insertValuesSQL []) =
  snd (Check (Demo.demoContext "2" None) Demo.insertValuesSQL []).
Proof.
  apply (@X8_higher_threshold_no_more_advice Demo.demo
           (Demo.demoContext "2" None) (Demo.demoContext "3" None)
           Demo.insertValuesSQL [] [Demo.insertValues] Warn Warn
           (mkNumberPayload 2) (mkNumberPayload 3)
           eq_refl eq_refl eq_refl eq_refl eq_refl eq_refl eq_refl eq_refl eq_refl);
    simpl; unfold in_int64, min_int64, max_int64; lia.
Defined.

Lemma X9_witness :
  snd (snd (@Check (logged Demo.demo)
              (@mkContext (logged Demo.demo) "utf8mb4" "utf8mb4_general_ci"
                 (Demo.warnRule "2")
                 (Some (inl (Demo.explainAnswer (VInt64 1)))) false)
              Demo.insertSelectSQL ([], ["SELECT 1"]))) =
  ["SELECT 1"; "EXPLAIN INSERT INTO t SELECT * FROM other"].
Proof.
  apply (@X9_one_explain_per_insert_select Demo.demo
           (@mkContext (logged Demo.demo) "utf8mb4" "utf8mb4_general_ci"
              (Demo.warnRule "2")
              (Some (inl (Demo.explainAnswer (VInt64 1)))) false)
           Demo.insertSelectSQL [] ["SELECT 1"] [Demo.insertSelect]
           Warn (mkNumberPayload 2) (inl (Demo.explainAnswer (VInt64 1)))
           eq_refl eq_refl eq_refl);
    [simpl; lia | reflexivity].
Defined.

Lemma X10_witness :
  getInsertRows (Demo.explainAnswer (VString "-12")) = inl (-12).
Proof.
  apply (@X10_row_count_in_any_representation Demo.demo
           (VSlice []) (VSlice [])
           (VSlice [VInt64 1; VString "INSERT"; VString "t"; VNil; VString "ALL";
                    VNil; VNil; VNil; VNil; VNil; VNil; VNil])
           [VInt64 1; VString "SIMPLE"; VString "other"; VNil; VString "ALL";
            VNil; VNil; VNil; VNil; VString "-12"; VString "100.00"; VNil]
           [] (-12)).
  - unfold in_int64, min_int64, max_int64. lia.
  - reflexivity.
  - right; right. reflexivity.
Defined.

Lemma X11_witness :
  In (mkAdvice Warn InsertTooManyRows "statement.insert.row-limit"
        (tooManyRowsContent Demo.insertValuesSQL 3 2) 1)
     (fst (fst (Check (Demo.demoContext "2" (Some (inr (Errorf "connection refused"))))
                  Demo.insertValuesSQL []))).
Proof.
  apply (@X11_static_findings_survive_handle Demo.demo
           (Demo.demoContext "2" (Some (inr (Errorf "connection refused"))))
           Demo.insertValuesSQL [] [Demo.insertValues] Warn (mkNumberPayload 2)
           _ eq_refl eq_refl eq_refl).
  - simpl. lia.
  - left. reflexivity.
Defined.
